(** * HDF5_Browser: an interactive browser over an HDF5 file

    Shallow embedding of [src/HDF5_Browser.py] and the properties of its
    navigation loop, listing, attribute report and data preview.

    The embedding keeps the structure of the script:
    - [Py]: the pieces of the Python string library the loop uses
      ([str.strip], [str.split], [str.lower], [" ".join], [sorted]);
    - [Np]: numpy's array summarisation under
      [np.printoptions(threshold=100, edgeitems=10)];
    - [H5]: the h5py objects the script reads (groups, datasets, attributes,
      membership test and item access by path);
    - the functions of the script themselves: [print_ls], [print_dataset],
      [print_attrs], the command dispatch and the loop of [browse_hdf5].

    Conventions of the model:
    - a file is a tree: every object (group, dataset or committed datatype)
      is reached by one chain of hard links; the only other links are soft or
      external links whose target is missing, which name no object;
    - the file is opened read-only, so a property or a read of a dataset gives
      the same outcome each time it is asked for, value or exception; every
      property of a dataset and every attribute value is read when the script
      asks for it, and the read may raise;
    - strings are sequences of 8-bit characters; whitespace and letter case
      are Python's on the ASCII range;
    - output is a list of structured lines, one per [print]; the text of a
      line and the formatting of single values are left out. *)

From Stdlib Require Import String Ascii List Bool Arith ZArith Lia.
From Stdlib Require Import Sorting.Sorted Sorting.Permutation.
Import ListNotations.
Local Open Scope string_scope.
Local Open Scope list_scope.
Set Warnings "-register-all".

(** ** Python strings *)

Module Py.

(** Characters for which [str.isspace] holds, on the ASCII range: tab, line
    feed, vertical tab, form feed, carriage return, the four separators
    0x1c-0x1f and the space. *)
Definition is_space (c : ascii) : bool :=
  let n := nat_of_ascii c in
  ((9 <=? n) && (n <=? 13) || (28 <=? n) && (n <=? 31) || (n =? 32))%nat.

Definition is_empty (s : string) : bool :=
  match s with EmptyString => true | String _ _ => false end.

(** [s.lstrip()] *)
Fixpoint lstrip (s : string) : string :=
  match s with
  | EmptyString => EmptyString
  | String c s' => if is_space c then lstrip s' else s
  end.

(** [s.rstrip()] *)
Fixpoint rstrip (s : string) : string :=
  match s with
  | EmptyString => EmptyString
  | String c s' =>
      let r := rstrip s' in
      if is_space c && is_empty r then EmptyString else String c r
  end.

(** [s.strip()] *)
Definition strip (s : string) : string := rstrip (lstrip s).

(** The word under construction is closed when a separator or the end of the
    string is met; an empty word is never emitted. *)
Definition flush (w : string) : list string :=
  if is_empty w then [] else [w].

(** Cut [s] at every character satisfying [sep], dropping empty pieces;
    [w] is the piece being read. *)
Fixpoint pieces (sep : ascii -> bool) (w : string) (s : string) : list string :=
  match s with
  | EmptyString => flush w
  | String c s' =>
      if sep c then flush w ++ pieces sep EmptyString s'
      else pieces sep (String.append w (String c EmptyString)) s'
  end.

(** [s.split()] with no argument: runs of whitespace separate the words and
    no empty word is produced. *)
Definition split (s : string) : list string := pieces is_space EmptyString s.

(** [c.lower()] on the ASCII letters. *)
Definition lower_char (c : ascii) : ascii :=
  let n := nat_of_ascii c in
  if ((65 <=? n) && (n <=? 90))%nat then ascii_of_nat (n + 32) else c.

(** [s.lower()] *)
Fixpoint lower (s : string) : string :=
  match s with
  | EmptyString => EmptyString
  | String c s' => String (lower_char c) (lower s')
  end.

(** [" ".join(args)] *)
Definition join_spaces (args : list string) : string := String.concat " " args.

(** [sorted(names)]: insertion into an ascending list under the lexicographic
    order of strings. *)
Fixpoint insert_sorted (x : string) (l : list string) : list string :=
  match l with
  | [] => [x]
  | y :: l' => if String.leb x y then x :: l else y :: insert_sorted x l'
  end.

Fixpoint sorted (l : list string) : list string :=
  match l with
  | [] => []
  | x :: l' => insert_sorted x (sorted l')
  end.

(** The strict lexicographic order of strings, by character code. *)
Definition lt (a b : string) : Prop := String.ltb a b = true.

(** A line made of whitespace only (the empty line included). *)
Fixpoint whitespace_only (s : string) : bool :=
  match s with
  | EmptyString => true
  | String c s' => is_space c && whitespace_only s'
  end.

(** No character of [s] satisfies [sep]. *)
Fixpoint free_of (sep : ascii -> bool) (s : string) : bool :=
  match s with
  | EmptyString => true
  | String c s' => negb (sep c) && free_of sep s'
  end.

(** A word as [split] produces them: not empty, no whitespace in it. *)
Definition word (w : string) : bool :=
  negb (is_empty w) && free_of is_space w.

End Py.

(** ** numpy: printing an array under [np.printoptions] *)

Module Np.

(** An array as nested sequences, one level per axis; a 0-dimensional value is
    an [Elem]. numpy's arrays are the regular ones (all items of an axis have
    the same shape); the definitions below do not need regularity. *)
Inductive ndarray : Type :=
| Elem (x : Z)
| Axis (items : list ndarray).

(** [a.size]: the number of elements. *)
Fixpoint size (a : ndarray) : nat :=
  match a with
  | Elem _ => 1
  | Axis items => list_sum (map size items)
  end.

(** The elements in printing (row-major) order. *)
Fixpoint elements (a : ndarray) : list Z :=
  match a with
  | Elem x => [x]
  | Axis items => flat_map elements items
  end.

(** What gets printed for an array: per axis a run of leading items, the
    elision marker ["..."] when [marker] is set, and a run of trailing items. *)
Inductive view : Type :=
| VElem (x : Z)
| VAxis (leading : list view) (marker : bool) (trailing : list view).

(** The recursion of numpy's array formatter. [summary] tells whether the
    summary insert is ["..."] (the array is larger than the threshold); an
    axis is summarised when moreover it is longer than twice [edgeitems], and
    is shown whole otherwise. *)
Fixpoint format_array (edgeitems : nat) (summary : bool) (a : ndarray) : view :=
  match a with
  | Elem x => VElem x
  | Axis items =>
      let vs := map (format_array edgeitems summary) items in
      let a_len := length items in
      if summary && (2 * edgeitems <? a_len)%nat
      then VAxis (firstn edgeitems vs) true (skipn (a_len - edgeitems) vs)
      else VAxis [] false vs
  end.

(** [print(a)] under [np.printoptions(threshold=.., edgeitems=..)]. *)
Definition array2string (threshold edgeitems : nat) (a : ndarray) : view :=
  format_array edgeitems (threshold <? size a)%nat a.

(** The elements that appear in a printed array, in order. *)
Fixpoint shown (v : view) : list Z :=
  match v with
  | VElem x => [x]
  | VAxis l _ t => flat_map shown l ++ flat_map shown t
  end.

(** Does the elision marker appear anywhere in the printed array? *)
Fixpoint has_marker (v : view) : bool :=
  match v with
  | VElem _ => false
  | VAxis l m t => m || existsb has_marker l || existsb has_marker t
  end.

(** Has the array an axis with more than [n] items? *)
Fixpoint long_axis (n : nat) (a : ndarray) : bool :=
  match a with
  | Elem _ => false
  | Axis items => (n <? length items)%nat || existsb (long_axis n) items
  end.

(** The number of nested axes: [a.ndim] of a regular array. *)
Fixpoint depth (a : ndarray) : nat :=
  match a with
  | Elem _ => 0
  | Axis items => S (list_max (map depth items))
  end.

End Np.

(** ** h5py: the objects of an open file *)

Module H5.

(** The exceptions the script tells apart: [TypeError], and every other
    subclass of [Exception], of which [KeyError] is the one h5py raises when
    an object cannot be opened. *)
Inductive exc : Type :=
| TypeError (msg : string)
| KeyError (msg : string)
| OtherError (msg : string).

(** The outcome of an operation that may raise. *)
Inductive result (A : Type) : Type :=
| Ok (a : A)
| Raise (e : exc).
Arguments Ok {A} a.
Arguments Raise {A} e.

(** [obj.attrs]: the attribute names in iteration order, each with what
    reading its value gives: the value as printed, or an exception. *)
Definition attr_table : Type := list (string * result string).

(** The attributes met before the first one whose value cannot be read, and
    the exception this one raises. *)
Fixpoint readable (a : attr_table) : list (string * string) :=
  match a with
  | [] => []
  | (k, Ok v) :: a' => (k, v) :: readable a'
  | (_, Raise _) :: _ => []
  end.

Fixpoint unreadable (a : attr_table) : option exc :=
  match a with
  | [] => None
  | (_, Ok _) :: a' => unreadable a'
  | (_, Raise e) :: _ => Some e
  end.

(** A dataset: what its properties and a full read [dataset[()]] give. The
    file is opened read-only, so reading twice gives the same outcome. The
    shape and the size of a dataset with a null dataspace are [None]. *)
Record dataset : Type := {
  shape : result (option (list nat));
  dtype : result string;
  size : result (option nat);
  chunks : result (option (list nat));
  compression : result (option string);
  ds_attrs : attr_table;
  read : result Np.ndarray
}.

(** What a link of a group leads to: a group with its named members in
    iteration order, a dataset, a committed datatype, or nothing (a soft or
    external link whose target is missing). *)
Inductive node : Type :=
| Group (attrs : attr_table) (items : list (string * node))
| Dataset (d : dataset)
| Datatype (attrs : attr_table)
| Dangling.

(** An open file is its root group. *)
Record file : Type := {
  root_attrs : attr_table;
  root_items : list (string * node)
}.

Definition root (f : file) : node := Group (root_attrs f) (root_items f).

(** The location of an object: the link names from the root down to it. The
    root is the empty path. *)
Definition path : Type := list string.

(** [obj.name]: ["/"] for the root, otherwise the link names each preceded
    by a slash. *)
Definition name (p : path) : string :=
  match p with
  | [] => "/"
  | _ => String.concat "" (map (String.append "/") p)
  end.

(** The member of a group bound to exactly the name [c]. *)
Fixpoint find_item (c : string) (items : list (string * node)) : option node :=
  match items with
  | [] => None
  | (k, n) :: items' => if String.eqb k c then Some n else find_item c items'
  end.

(** Follow link names downwards from [n]. *)
Fixpoint walk (n : node) (p : path) : option node :=
  match p with
  | [] => Some n
  | c :: p' =>
      match n with
      | Group _ items =>
          match find_item c items with
          | Some child => walk child p'
          | None => None
          end
      | _ => None
      end
  end.

Definition node_at (f : file) (p : path) : option node := walk (root f) p.

(** The group a location denotes, when it denotes one. *)
Definition group_at (f : file) (p : path)
  : option (attr_table * list (string * node)) :=
  match node_at f p with
  | Some (Group a items) => Some (a, items)
  | _ => None
  end.

Definition is_group (f : file) (p : path) : bool :=
  match group_at f p with Some _ => true | None => false end.

(** A location the loop can hold: it denotes a group, through link names
    none of which is empty. *)
Definition named (c : string) : bool := negb (Py.is_empty c).

Definition valid (f : file) (p : path) : bool :=
  is_group f p && forallb named p.

(** [obj.attrs] of any object. *)
Definition attrs_of (n : node) : attr_table :=
  match n with
  | Group a _ => a
  | Dataset d => ds_attrs d
  | Datatype a => a
  | Dangling => []
  end.

Definition is_slash (c : ascii) : bool := Ascii.eqb c "/".

(** A name given to [in] or to [group[...]] is an HDF5 path: link names
    separated by slashes, empty components ignored. *)
Definition components (nm : string) : list string :=
  Py.pieces is_slash EmptyString nm.

(** A path that starts with a slash is resolved from the root. *)
Definition absolute (nm : string) : bool :=
  match nm with
  | String c _ => is_slash c
  | EmptyString => false
  end.

(** Resolution of the components one hop at a time from [loc]: a link name
    leads to the member of that name, and the component ["."] stays where it
    is, which has to be a group. A link without target ends the walk: nothing
    is found beyond it. *)
Fixpoint resolve (f : file) (loc : path) (comps : list string) : option path :=
  match comps with
  | [] => Some loc
  | c :: cs =>
      if String.eqb c "." then
        match group_at f loc with
        | Some _ => resolve f loc cs
        | None => None
        end
      else match node_at f (loc ++ [c]) with
           | Some _ => resolve f (loc ++ [c]) cs
           | None => None
           end
  end.

(** The link the path [nm] leads to from the group at [loc], with its
    location. [nm in group] holds when there is one, whether or not it has a
    target; [group[nm]] then opens the object, and raises a [KeyError] when
    the link is [Dangling]. The script never indexes a group before the
    membership test, so [None] stands for a failed test. *)
Definition getitem (f : file) (loc : path) (nm : string) : option (path * node) :=
  if Py.is_empty nm then None
  else match resolve f (if absolute nm then [] else loc) (components nm) with
       | Some p =>
           match node_at f p with
           | Some n => Some (p, n)
           | None => None
           end
       | None => None
       end.

(** [nm in group] *)
Definition contains (f : file) (loc : path) (nm : string) : bool :=
  match getitem f loc nm with Some _ => true | None => false end.

(** A name with no slash in it that is neither empty nor ["."]: a path of
    exactly one link. *)
Fixpoint no_slash (nm : string) : bool :=
  match nm with
  | EmptyString => true
  | String c nm' => negb (is_slash c) && no_slash nm'
  end.

Definition plain_name (nm : string) : bool :=
  negb (Py.is_empty nm) && no_slash nm && negb (String.eqb nm ".").

(** [group.parent]: the group one link above. *)
Definition parent (p : path) : path := removelast p.

(** The single-level lookup: [nm] taken as one exact member name of the
    group at [loc]. *)
Definition child (f : file) (loc : path) (nm : string) : option (path * node) :=
  match group_at f loc with
  | Some (_, items) =>
      match find_item nm items with
      | Some n => Some (loc ++ [nm], n)
      | None => None
      end
  | None => None
  end.

(** A location all of whose link names are names of one link. *)
Definition plain_path (p : path) : bool := forallb plain_name p.

(** No component is ["."]. *)
Definition dotless (comps : list string) : bool :=
  forallb (fun c => negb (String.eqb c ".")) comps.

(** The components of a path that move: all but ["."]. *)
Definition moving (comps : list string) : list string :=
  filter (fun c => negb (String.eqb c ".")) comps.

End H5.

(** ** The script *)

Import H5.

(** What the script prints, one constructor per [print] of the source (the
    prompt of [input] included). *)
Inductive line : Type :=
| OpenFailed (filepath : string) (e : exc)
| OpenedFile (filename : string)
| HelpHint
| Prompt (filename group_name : string)
| EofNotice
| InterruptNotice
| Goodbye
| HelpText
| LsHeader (group_name : string)
| LsEmpty
| LsGroup (g : string)
| LsDataset (d : string) (shp : option (list nat)) (ty : string)
| LsUnreadable (d : string) (e : exc)
| PwdLine (group_name : string)
| CdUsage
| AlreadyAtRoot
| CdIsDataset (target : string)
| CdNotFound (group_name target : string)
| CatUsage
| CatIsGroup (target : string)
| CatNotFound (group_name target : string)
| DsHeader (dataset_name : string)
| DsShape (shp : option (list nat))
| DsDtype (ty : string)
| DsSize (n : option nat)
| DsChunks (c : option (list nat))
| DsCompression (c : option string)
| DsAttrsHeader
| DsAttr (k v : string)
| DsDataHeader
| DsData (v : Np.view)
| DsUnavailable (e : exc)
| DsEnd
| AttrsNotFound (group_name target : string)
| AttrsHeader (item_name : string)
| AttrsNone
| AttrsEntry (k v : string)
| AttrsFooter
| UnknownCommand (cmd : string)
| SelectedFile (filepath : string)
| TopLevelError (e : exc).

(** The lines that report a failed command. *)
Definition is_error (l : line) : bool :=
  match l with
  | CdUsage | CdIsDataset _ | CdNotFound _ _
  | CatUsage | CatIsGroup _ | CatNotFound _ _
  | AttrsNotFound _ _ | UnknownCommand _ | OpenFailed _ _
  | TopLevelError _ => true
  | _ => false
  end.

Definition print_help : list line := [HelpText].

Definition is_group_node (n : node) : bool :=
  match n with Group _ _ => true | _ => false end.

Definition is_dataset_node (n : node) : bool :=
  match n with Dataset _ => true | _ => false end.

(** The members [print_ls] has a line for: groups and datasets. *)
Definition listed (kn : string * node) : bool :=
  is_group_node (snd kn) || is_dataset_node (snd kn).

(** The names appended to [groups], in iteration order. *)
Definition group_names (items : list (string * node)) : list string :=
  map fst (filter (fun kn => is_group_node (snd kn)) items).

(** The names appended to [datasets], in iteration order. A member that is
    neither a group nor a dataset goes to neither list. *)
Definition dataset_names (items : list (string * node)) : list string :=
  map fst (filter (fun kn => is_dataset_node (snd kn)) items).

(** The line of one dataset in a listing: [group[d]] is looked up again and
    its shape and dtype are read, all under a [try] whose handler prints the
    exception instead. *)
Definition ls_dataset_line (f : file) (cur : path) (d : string) : line :=
  match getitem f cur d with
  | Some (_, Dataset ds) =>
      match shape ds, dtype ds with
      | Ok shp, Ok ty => LsDataset d shp ty
      | Raise e, _ => LsUnreadable d e
      | Ok _, Raise e => LsUnreadable d e
      end
  | Some (_, Group _ _) | Some (_, Datatype _) =>
      LsUnreadable d (OtherError "AttributeError")
  | Some (_, Dangling) | None => LsUnreadable d (KeyError d)
  end.

(** [print_ls(group)] for the group at [cur] with members [items]. *)
Definition print_ls (f : file) (cur : path) (items : list (string * node))
  : list line :=
  let groups := group_names items in
  let datasets := dataset_names items in
  LsHeader (name cur) ::
  match groups, datasets with
  | [], [] => [LsEmpty]
  | _, _ =>
      map LsGroup (Py.sorted groups) ++
      map (ls_dataset_line f cur) (Py.sorted datasets)
  end.

(** The preview limits of [print_dataset], and numpy's defaults, which
    apply outside of the [with np.printoptions] block. *)
Definition preview_threshold : nat := 100.
Definition preview_edgeitems : nat := 10.
Definition default_threshold : nat := 1000.
Definition default_edgeitems : nat := 3.

(** The lines a function has printed, and the exception that leaves it if
    one does. *)
Definition report : Type := list line * option exc.

(** Nothing more is printed and the function returns. *)
Definition done : report := ([], None).

(** [print(l)], then [k]. *)
Definition emit (l : line) (k : report) : report := (l :: fst k, snd k).

(** Read [r], then [k] with the value; an exception leaves at once. *)
Definition reading {A : Type} (r : result A) (k : A -> report) : report :=
  match r with
  | Ok a => k a
  | Raise e => ([], Some e)
  end.

(** [a], then [k] unless [a] raised. *)
Definition and_then (a k : report) : report :=
  match snd a with
  | None => (fst a ++ fst k, snd k)
  | Some e => a
  end.

Declare Scope report_scope.
Delimit Scope report_scope with report.
Notation "'print' l ;; k" := (emit l k)
  (at level 61, l at next level, right associativity) : report_scope.
Notation "x <- r ;; k" := (reading r (fun x => k))
  (at level 61, r at next level, right associativity) : report_scope.

(** Every line of a report satisfies [P]. *)
Definition all_lines (P : line -> Prop) (r : report) : Prop :=
  forall l, In l (fst r) -> P l.

(** [for k, v in attrs.items(): print(...)]: the value of each attribute is
    read when its turn comes. *)
Fixpoint attr_lines (entry : string -> string -> line) (a : attr_table) : report :=
  match a with
  | [] => done
  | (k, r) :: a' => (v <- r ;; print (entry k v) ;; attr_lines entry a')%report
  end.

(** [print_dataset(dataset)]. The properties and the attributes are read
    outside of any [try]; the read of the data is guarded, and its
    [TypeError] handler reads the data once more, unguarded. *)
Definition print_dataset (dataset_name : string) (d : dataset) : report :=
  (print (DsHeader dataset_name) ;;
   shp <- shape d ;; print (DsShape shp) ;;
   ty <- dtype d ;; print (DsDtype ty) ;;
   n <- size d ;; print (DsSize n) ;;
   c <- chunks d ;; print (DsChunks c) ;;
   z <- compression d ;; print (DsCompression z) ;;
   and_then
     match ds_attrs d with
     | [] => done
     | kvs => print DsAttrsHeader ;; attr_lines DsAttr kvs
     end
     (print DsDataHeader ;;
      match read d with
      | Ok data =>
          print (DsData (Np.array2string preview_threshold preview_edgeitems data)) ;;
          print DsEnd ;; done
      | Raise (TypeError _) =>
          data <- read d ;;
          print (DsData (Np.array2string default_threshold default_edgeitems data)) ;;
          print DsEnd ;; done
      | Raise e =>
          print (DsUnavailable e) ;; print DsEnd ;; done
      end))%report.

(** The attribute report of an object named [item_name]; the early [return]
    of an empty table skips the footer. *)
Definition attrs_report (item_name : string) (a : attr_table) : report :=
  (print (AttrsHeader item_name) ;;
   match a with
   | [] => print AttrsNone ;; done
   | kvs => and_then (attr_lines AttrsEntry kvs) (print AttrsFooter ;; done)
   end)%report.

(** [print_attrs(group, item_name)] for the group at [cur] with attributes
    [group_attrs]. An [item_name] that is [None] or empty is falsy;
    [group[item_name]] raises when the link has no target. *)
Definition print_attrs (f : file) (cur : path) (group_attrs : attr_table)
    (item_name : option string) : report :=
  match item_name with
  | Some nm =>
      if Py.is_empty nm then attrs_report (name cur) group_attrs
      else match getitem f cur nm with
           | Some (_, Dangling) => ([], Some (KeyError nm))
           | Some (p, n) => attrs_report (name p) (attrs_of n)
           | None => ([AttrsNotFound (name cur) nm], None)
           end
  | None => attrs_report (name cur) group_attrs
  end.

(** What the loop makes of a line: the verb in lower case and the words
    after it; nothing for a line without a word. *)
Definition command (s : string) : option (string * list string) :=
  match Py.split s with
  | [] => None
  | word :: args => Some (Py.lower word, args)
  end.

(** Is the line an [exit], [quit] or [q] command? *)
Definition exits (s : string) : bool :=
  match command s with
  | Some (cmd, _) => existsb (String.eqb cmd) ["exit"; "quit"; "q"]
  | None => false
  end.

(** The prompts among the printed lines, and the attribute entries of a
    report. *)
Definition is_prompt (l : line) : bool :=
  match l with Prompt _ _ => true | _ => false end.

Definition is_attr_entry (l : line) : bool :=
  match l with AttrsEntry _ _ => true | _ => false end.

(** One turn of the loop after a line was read. *)
Inductive step : Type :=
| Continue (cur' : path) (out : list line)
    (** the loop goes on with [current_group = cur'] *)
| Break (out : list line)
    (** [break] *)
| Raised (out : list line) (e : exc)
    (** an exception leaves the loop *).

Definition one_of (cmd : string) (verbs : list string) : bool :=
  existsb (String.eqb cmd) verbs.

(** A function that returned lets the loop go on where it is; one that
    raised ends the turn with its exception. *)
Definition after (cur : path) (r : report) : step :=
  match r with
  | (out, None) => Continue cur out
  | (out, Some e) => Raised out e
  end.

(** The branch [cmd == 'cd'] with [args] not empty: [current_group[...]]
    raises when the link has no target, and whatever is not a group is
    taken for a dataset. *)
Definition change_directory (f : file) (cur : path) (target_path : string) : step :=
  if String.eqb target_path ".." then
    if String.eqb (name cur) "/" then Continue cur [AlreadyAtRoot]
    else Continue (parent cur) []
  else if String.eqb target_path "/" then Continue [] []
  else match getitem f cur target_path with
       | Some (p, Group _ _) => Continue p []
       | Some (_, Dangling) => Raised [] (KeyError target_path)
       | Some (_, _) => Continue cur [CdIsDataset target_path]
       | None => Continue cur [CdNotFound (name cur) target_path]
       end.

(** The branch [cmd in ['cat', 'view']] with [args] not empty: whatever is
    not a dataset is taken for a group. *)
Definition view_dataset (f : file) (cur : path) (dataset_name : string) : step :=
  match getitem f cur dataset_name with
  | Some (p, Dataset d) =>
      match print_dataset (name p) d with
      | (out, None) => Continue cur out
      | (out, Some e) => Raised out e
      end
  | Some (_, Dangling) => Raised [] (KeyError dataset_name)
  | Some (_, _) => Continue cur [CatIsGroup dataset_name]
  | None => Continue cur [CatNotFound (name cur) dataset_name]
  end.

(** The body of the loop for the line [s] returned by [input]. A location
    that is not a group has no members and no attributes to show; the loop
    never holds one (see [loop_locations_valid]). *)
Definition dispatch (f : file) (cur : path) (s : string) : step :=
  let command_line := Py.strip s in
  if Py.is_empty command_line then Continue cur []
  else
    match Py.split command_line with
    | [] => Raised [] (OtherError "list index out of range")
    | word :: args =>
        let cmd := Py.lower word in
        if one_of cmd ["exit"; "quit"; "q"] then Break [Goodbye]
        else if String.eqb cmd "help" then Continue cur print_help
        else if String.eqb cmd "ls" then
          match group_at f cur with
          | Some (_, items) => Continue cur (print_ls f cur items)
          | None => Raised [] (OtherError "invalid location")
          end
        else if String.eqb cmd "pwd" then Continue cur [PwdLine (name cur)]
        else if String.eqb cmd "cd" then
          match args with
          | [] => Continue cur [CdUsage]
          | _ => change_directory f cur (Py.join_spaces args)
          end
        else if one_of cmd ["cat"; "view"] then
          match args with
          | [] => Continue cur [CatUsage]
          | _ => view_dataset f cur (Py.join_spaces args)
          end
        else if String.eqb cmd "attrs" then
          match group_at f cur with
          | Some (a, _) => after cur (print_attrs f cur a (hd_error args))
          | None => Raised [] (OtherError "invalid location")
          end
        else Continue cur [UnknownCommand cmd]
    end.

(** What a turn printed. *)
Definition step_output (r : step) : list line :=
  match r with
  | Continue _ out => out
  | Break out => out
  | Raised out _ => out
  end.

(** What [input] gives at a prompt: a line, or [KeyboardInterrupt]; the end
    of the stream raises [EOFError]. *)
Inductive input_event : Type :=
| Line (s : string)
| Interrupt.

(** How the loop was left. *)
Inductive loop_end : Type :=
| LoopLeft                 (** by [break] *)
| Propagated (e : exc)     (** by an exception *).

Record loop_run : Type := {
  printed : list line;
  locations : list path;   (** [current_group] at every prompt *)
  ended : loop_end
}.

(** The [while True] loop of [browse_hdf5], started at [cur], over the
    stream of inputs [evs]. *)
Fixpoint loop (f : file) (filename : string) (cur : path)
    (evs : list input_event) : loop_run :=
  let prompt := Prompt filename (name cur) in
  match evs with
  | [] =>
      {| printed := [prompt; EofNotice]; locations := [cur]; ended := LoopLeft |}
  | Interrupt :: _ =>
      {| printed := [prompt; InterruptNotice]; locations := [cur];
         ended := LoopLeft |}
  | Line s :: evs' =>
      match dispatch f cur s with
      | Continue cur' out =>
          let r := loop f filename cur' evs' in
          {| printed := prompt :: out ++ printed r;
             locations := cur :: locations r;
             ended := ended r |}
      | Break out =>
          {| printed := prompt :: out; locations := [cur]; ended := LoopLeft |}
      | Raised out e =>
          {| printed := prompt :: out; locations := [cur];
             ended := Propagated e |}
      end
  end.

(** The file handle [f] of [browse_hdf5]. *)
Inductive handle : Type :=
| NotOpened
| StillOpen
| Closed.

Record session : Type := {
  output : list line;
  visited : list path;
  file_handle : handle;
  raised : option exc     (** the exception [browse_hdf5] ends with, if any *)
}.

(** [browse_hdf5(filepath)]. [opening] is what [h5py.File(filepath, 'r')]
    gives and [basename] is [os.path.basename], which depends on the
    platform. [f.close()] is the statement after the loop. *)
Definition browse_hdf5 (basename : string -> string) (opening : result file)
    (filepath : string) (evs : list input_event) : session :=
  match opening with
  | Raise e =>
      {| output := [OpenFailed filepath e]; visited := [];
         file_handle := NotOpened; raised := None |}
  | Ok f =>
      let filename := basename filepath in
      let r := loop f filename [] evs in
      {| output := OpenedFile filename :: HelpHint :: printed r;
         visited := locations r;
         file_handle :=
           match ended r with LoopLeft => Closed | Propagated _ => StillOpen end;
         raised :=
           match ended r with LoopLeft => None | Propagated e => Some e end |}
  end.

(** The entry point, once [choose_file] has returned [file_path]: an
    exception that leaves [browse_hdf5] is reported and the program ends. *)
Definition main (basename : string -> string) (opening : result file)
    (file_path : string) (evs : list input_event) : list line :=
  let s := browse_hdf5 basename opening file_path evs in
  SelectedFile file_path :: output s ++
  match raised s with
  | Some e => [TopLevelError e]
  | None => []
  end.

(** ** A small file to run the script on

    [/g1] holds the dataset [d1] of shape (5,) and a dataset whose name has a
    space in it; [/a] holds the group [b]; [/wide] is a dataset of 11 x 11
    elements; reading [/odd] raises a [TypeError]; [/types] holds nothing but
    a committed datatype; [/misc] holds a soft link without target and a
    dataset whose second attribute cannot be read. *)

Module Sample.

Definition vector (xs : list Z) : Np.ndarray := Np.Axis (map Np.Elem xs).

Definition no_data (shp : list nat) (r : result Np.ndarray) : dataset :=
  {| shape := Ok (Some shp); dtype := Ok "int64";
     size := Ok (Some (fold_right Nat.mul 1 shp)); chunks := Ok None;
     compression := Ok None; ds_attrs := []; read := r |}.

Definition d1 : dataset := no_data [5] (Ok (vector [1; 2; 3; 4; 5]%Z)).

Definition row11 : Np.ndarray := vector [0; 1; 2; 3; 4; 5; 6; 7; 8; 9; 10]%Z.

Definition grid11 : Np.ndarray := Np.Axis (repeat row11 11).

Definition wide : dataset := no_data [11; 11] (Ok grid11).

Definition odd : dataset := no_data [2] (Raise (TypeError "no conversion")).

Definition tagged : dataset :=
  {| shape := Ok (Some [1]); dtype := Ok "int64"; size := Ok (Some 1);
     chunks := Ok None; compression := Ok None;
     ds_attrs := [("unit", Ok "m"); ("ref", Raise (TypeError "no conversion"));
                  ("scale", Ok "2")];
     read := Ok (vector [7]%Z) |}.

Definition the_file : file :=
  {| root_attrs := [];
     root_items :=
       [ ("g1", Group [] [ ("d1", Dataset d1); ("my data", Dataset d1) ]);
         ("a", Group [("unit", Ok "m")] [ ("b", Group [] []) ]);
         ("wide", Dataset wide);
         ("odd", Dataset odd);
         ("my data", Dataset d1);
         ("types", Group [] [ ("ty", Datatype []) ]);
         ("misc", Group [] [ ("lnk", Dangling); ("t", Dataset tagged) ]) ] |}.

Definition basename (filepath : string) : string := filepath.

End Sample.

(** * Properties *)

(** ** Python strings *)

Example split_words : Py.split "  attrs   my data " = ["attrs"; "my"; "data"].
Proof. reflexivity. Qed.

Example strip_keeps_inner_spaces : Py.strip "  cd  My Group  " = "cd  My Group".
Proof. reflexivity. Qed.

Example sorted_by_code_point : Py.sorted ["b"; "a"; "B"; "ab"] = ["B"; "a"; "ab"; "b"].
Proof. reflexivity. Qed.

Lemma lstrip_whitespace (s : string) :
  Py.whitespace_only s = true -> Py.lstrip s = EmptyString.
Proof.
  induction s as [|c s IH]; simpl; [reflexivity|].
  intros H. apply andb_prop in H as [Hc Hs]. rewrite Hc. now apply IH.
Qed.

Lemma strip_whitespace (s : string) :
  Py.whitespace_only s = true -> Py.strip s = EmptyString.
Proof.
  intros H. unfold Py.strip. now rewrite lstrip_whitespace.
Qed.

Lemma lstrip_head (s : string) (c : ascii) (r : string) :
  Py.lstrip s = String c r -> Py.is_space c = false.
Proof.
  induction s as [|a s IH]; simpl; [discriminate|].
  destruct (Py.is_space a) eqn:Ha; [exact IH|].
  intros H. injection H as -> _. exact Ha.
Qed.

Lemma strip_head (s : string) (c : ascii) (r : string) :
  Py.strip s = String c r -> Py.is_space c = false.
Proof.
  unfold Py.strip. destruct (Py.lstrip s) as [|a t] eqn:E; simpl; [discriminate|].
  pose proof (lstrip_head _ _ _ E) as Ha. rewrite Ha. simpl.
  intros H. injection H as -> _. exact Ha.
Qed.

Lemma append_not_empty (w : string) (c : ascii) :
  Py.is_empty (String.append w (String c EmptyString)) = false.
Proof. destruct w; reflexivity. Qed.

Lemma pieces_not_nil (sep : ascii -> bool) (s w : string) :
  Py.is_empty w = false -> Py.pieces sep w s <> [].
Proof.
  revert w. induction s as [|c s IH]; intros w Hw; simpl.
  - unfold Py.flush. rewrite Hw. discriminate.
  - destruct (sep c).
    + unfold Py.flush. rewrite Hw. discriminate.
    + apply IH, append_not_empty.
Qed.

(** A stripped line that is not empty has a first word: [parts[0]] never
    fails. *)
Lemma split_strip_not_nil (s : string) :
  Py.is_empty (Py.strip s) = false -> Py.split (Py.strip s) <> [].
Proof.
  destruct (Py.strip s) as [|c r] eqn:E; [discriminate|]. intros _.
  unfold Py.split. simpl. rewrite (strip_head _ _ _ E).
  apply pieces_not_nil. reflexivity.
Qed.

Lemma append_empty_r (s : string) : String.append s EmptyString = s.
Proof. induction s; simpl; congruence. Qed.

Lemma append_assoc (a b c : string) :
  String.append (String.append a b) c = String.append a (String.append b c).
Proof. induction a; simpl; congruence. Qed.

Lemma pieces_without_separator (sep : ascii -> bool) (s w : string) :
  (fix none (s : string) : bool :=
     match s with
     | EmptyString => true
     | String c s' => negb (sep c) && none s'
     end) s = true ->
  Py.pieces sep w s = Py.flush (String.append w s).
Proof.
  revert w. induction s as [|c s IH]; intros w H; simpl.
  - now rewrite append_empty_r.
  - apply andb_prop in H as [Hc Hs].
    apply negb_true_iff in Hc. rewrite Hc.
    rewrite IH by exact Hs. now rewrite append_assoc.
Qed.

(** ** Locations and lookups *)

Lemma walk_app (n : node) (p q : path) :
  walk n (p ++ q) =
  match walk n p with
  | Some m => walk m q
  | None => None
  end.
Proof.
  revert n. induction p as [|c p IH]; intros n; simpl; [reflexivity|].
  destruct n as [a items|d|a|]; try reflexivity.
  destruct (find_item c items); [apply IH|reflexivity].
Qed.

Lemma walk_snoc (n : node) (p : path) (c : string) :
  walk n (p ++ [c]) =
  match walk n p with
  | Some (Group _ items) => find_item c items
  | _ => None
  end.
Proof.
  rewrite walk_app. destruct (walk n p) as [[a items|d|a|]|]; simpl; try reflexivity.
  destruct (find_item c items); reflexivity.
Qed.

Lemma is_group_root (f : file) : is_group f [] = true.
Proof. reflexivity. Qed.

Lemma is_group_node_at (f : file) (p : path) (a : attr_table)
    (items : list (string * node)) :
  node_at f p = Some (Group a items) -> is_group f p = true.
Proof. intros H. unfold is_group, group_at. now rewrite H. Qed.

(** The parent of a group other than the root is a group. *)
Lemma is_group_parent (f : file) (p : path) :
  p <> [] -> is_group f p = true -> is_group f (parent p) = true.
Proof.
  intros Hp H. unfold parent.
  rewrite (app_removelast_last EmptyString Hp) in H.
  unfold is_group, group_at, node_at in *.
  rewrite walk_snoc in H.
  destruct (walk (root f) (removelast p)) as [[a items|d|a|]|]; try discriminate.
  reflexivity.
Qed.

Lemma name_root_iff_nil (p : path) :
  forallb named p = true -> name p = "/" -> p = [].
Proof.
  destruct p as [|c p]; [reflexivity|]. simpl. intros H.
  apply andb_prop in H as [Hc _].
  destruct c as [|x c]; [discriminate|].
  destruct p; simpl; discriminate.
Qed.

Lemma name_not_root (p : path) : name p <> "/" -> p <> [].
Proof. intros H ->. now apply H. Qed.

(** What [getitem] returns is the object at the location it returns. *)
Lemma getitem_node_at (f : file) (loc : path) (nm : string) (p : path) (n : node) :
  getitem f loc nm = Some (p, n) -> node_at f p = Some n.
Proof.
  unfold getitem. destruct (Py.is_empty nm); [discriminate|].
  destruct (resolve f _ _) as [q|]; [|discriminate].
  destruct (node_at f q) as [m|] eqn:E; [|discriminate].
  intros H. injection H as <- <-. exact E.
Qed.

Lemma plain_name_parts (nm : string) :
  plain_name nm = true ->
  Py.is_empty nm = false /\ absolute nm = false /\ components nm = [nm] /\
  String.eqb nm "." = false.
Proof.
  unfold plain_name. intros H.
  apply andb_prop in H as [H Hdot]. apply andb_prop in H as [Hne Hns].
  apply negb_true_iff in Hne. apply negb_true_iff in Hdot.
  repeat split; trivial.
  - destruct nm as [|c nm]; [reflexivity|]. simpl in Hns.
    apply andb_prop in Hns as [Hc _]. now apply negb_true_iff in Hc.
  - unfold components. rewrite pieces_without_separator by exact Hns.
    simpl. unfold Py.flush. now rewrite Hne.
Qed.

(** For a name of one link, [group[nm]] is the lookup of [nm] among the
    members of the group. *)
Lemma getitem_plain (f : file) (loc : path) (nm : string) :
  plain_name nm = true -> getitem f loc nm = child f loc nm.
Proof.
  intros H. destruct (plain_name_parts nm H) as (Hne & Habs & Hcomp & Hdot).
  assert (E : node_at f (loc ++ [nm]) =
              match node_at f loc with
              | Some (Group _ items) => find_item nm items
              | _ => None
              end) by apply walk_snoc.
  unfold getitem, child, group_at. rewrite Hne, Habs, Hcomp.
  cbn [resolve]. rewrite Hdot, E.
  destruct (node_at f loc) as [[a items|d|a|]|]; try reflexivity.
  destruct (find_item nm items) as [n|] eqn:En; [|reflexivity].
  now rewrite E.
Qed.

Lemma pieces_named (sep : ascii -> bool) (s w : string) :
  forallb named (Py.pieces sep w s) = true.
Proof.
  assert (Hflush : forall w, forallb named (Py.flush w) = true).
  { intros v. unfold Py.flush, named. destruct (Py.is_empty v) eqn:E; simpl;
      [reflexivity | now rewrite E]. }
  revert w. induction s as [|c s IH]; intros w; simpl; [apply Hflush|].
  destruct (sep c); [|apply IH].
  rewrite forallb_app, Hflush, IH. reflexivity.
Qed.

Lemma resolve_named (f : file) (comps : list string) (loc p : path) :
  forallb named loc = true -> forallb named comps = true ->
  resolve f loc comps = Some p -> forallb named p = true.
Proof.
  revert loc. induction comps as [|c cs IH]; intros loc Hloc Hcs; simpl.
  - intros H. now injection H as <-.
  - simpl in Hcs. apply andb_prop in Hcs as [Hc Hcs].
    destruct (String.eqb c ".").
    { destruct (group_at f loc); [now apply IH | discriminate]. }
    destruct (node_at f (loc ++ [c])); [|discriminate].
    apply IH; [|exact Hcs]. rewrite forallb_app, Hloc. simpl. now rewrite Hc.
Qed.

(** A group reached by [group[nm]] from a valid location is a valid
    location. *)
Lemma getitem_valid (f : file) (loc : path) (nm : string) (p : path)
    (a : attr_table) (items : list (string * node)) :
  valid f loc = true -> getitem f loc nm = Some (p, Group a items) ->
  valid f p = true.
Proof.
  intros Hv H. unfold valid.
  rewrite (is_group_node_at f p a items (getitem_node_at _ _ _ _ _ H)). simpl.
  apply andb_prop in Hv as [_ Hn].
  unfold getitem in H. destruct (Py.is_empty nm); [discriminate|].
  destruct (resolve f _ _) as [q|] eqn:E; [|discriminate].
  destruct (node_at f q); [|discriminate]. injection H as <- _.
  eapply resolve_named; [| apply pieces_named | exact E].
  now destruct (absolute nm).
Qed.

Lemma valid_root (f : file) : valid f [] = true.
Proof. reflexivity. Qed.

Lemma valid_parent (f : file) (p : path) :
  p <> [] -> valid f p = true -> valid f (parent p) = true.
Proof.
  intros Hp Hv. apply andb_prop in Hv as [Hg Hn]. unfold valid.
  rewrite (is_group_parent f p Hp Hg). simpl.
  unfold parent. rewrite (app_removelast_last EmptyString Hp) in Hn.
  rewrite forallb_app in Hn. now apply andb_prop in Hn as [Hn _].
Qed.

(** The outcomes of [cd]: the root notice, a move to the parent, to the root
    or into the group the target leads to, the error line for an object that
    is not a group, the error line for a name that is not found, or the
    [KeyError] of a link without target. None but a move changes the
    location. *)
Lemma change_directory_cases (f : file) (cur : path) (t : string) :
  (t = ".." /\ name cur = "/" /\
   change_directory f cur t = Continue cur [AlreadyAtRoot]) \/
  (t = ".." /\ name cur <> "/" /\
   change_directory f cur t = Continue (parent cur) []) \/
  (t = "/" /\ change_directory f cur t = Continue [] []) \/
  (t <> ".." /\ t <> "/" /\
   ((exists p a items, getitem f cur t = Some (p, Group a items) /\
                       change_directory f cur t = Continue p []) \/
    (exists p n, getitem f cur t = Some (p, n) /\
                 is_group_node n = false /\ n <> Dangling /\
                 change_directory f cur t = Continue cur [CdIsDataset t]) \/
    (getitem f cur t = None /\
     change_directory f cur t = Continue cur [CdNotFound (name cur) t]) \/
    (exists p, getitem f cur t = Some (p, Dangling) /\
               change_directory f cur t = Raised [] (KeyError t)))).
Proof.
  unfold change_directory.
  destruct (String.eqb_spec t "..") as [->|Hdd].
  - destruct (String.eqb_spec (name cur) "/") as [E|E]; auto.
  - destruct (String.eqb_spec t "/") as [->|Hr]; [auto|].
    do 3 right. repeat split; trivial.
    destruct (getitem f cur t) as [[p [a items|d|a|]]|].
    + left. eauto.
    + right. left. exists p, (Dataset d). repeat split; trivial. discriminate.
    + right. left. exists p, (Datatype a). repeat split; trivial. discriminate.
    + do 3 right. eauto.
    + right. right. left. auto.
Qed.

Lemma change_directory_valid (f : file) (cur : path) (t : string)
    (cur' : path) (out : list line) :
  valid f cur = true -> change_directory f cur t = Continue cur' out ->
  valid f cur' = true.
Proof.
  intros Hv H.
  destruct (change_directory_cases f cur t)
    as [(_ & _ & E) | [(_ & Hn & E) | [(_ & E) | (_ & _ & [(p & a & items & G & E) | [(p & n & _ & _ & _ & E) | [(_ & E) | (p & _ & E)]]])]]];
    rewrite E in H; try discriminate; injection H as <- _; trivial.
  - apply valid_parent; [now apply name_not_root | exact Hv].
  - eapply getitem_valid; eauto.
Qed.

Lemma change_directory_moves_silently (f : file) (cur : path) (t : string)
    (cur' : path) (out : list line) :
  change_directory f cur t = Continue cur' out -> cur' <> cur -> out = [].
Proof.
  intros H Hne.
  destruct (change_directory_cases f cur t)
    as [(_ & _ & E) | [(_ & Hn & E) | [(_ & E) | (_ & _ & [(p & a & items & G & E) | [(p & n & _ & _ & _ & E) | [(_ & E) | (p & _ & E)]]])]]];
    rewrite E in H; try discriminate; injection H as <- <-; trivial;
    now contradiction Hne.
Qed.

Lemma view_dataset_stays (f : file) (cur : path) (t : string)
    (cur' : path) (out : list line) :
  view_dataset f cur t = Continue cur' out -> cur' = cur.
Proof.
  unfold view_dataset.
  destruct (getitem f cur t) as [[p [a items|d|a|]]|]; try discriminate;
    try (intros H; now injection H as <- _).
  destruct (print_dataset (name p) d) as [o [e|]]; [discriminate|].
  intros H. now injection H as <- _.
Qed.

Lemma after_stays (cur : path) (r : report) (cur' : path) (out : list line) :
  after cur r = Continue cur' out -> cur' = cur.
Proof.
  destruct r as [o [e|]]; simpl; [discriminate|]. intros H. now injection H as <- _.
Qed.

(** Every turn that changes the location is a [cd] with an argument, and it
    prints nothing. *)
Lemma dispatch_moves_only_on_cd (f : file) (cur : path) (s : string)
    (cur' : path) (out : list line) :
  dispatch f cur s = Continue cur' out -> cur' <> cur ->
  out = [] /\
  exists word arg args,
    Py.split (Py.strip s) = word :: arg :: args /\ Py.lower word = "cd".
Proof.
  unfold dispatch. intros H Hne.
  destruct (Py.is_empty (Py.strip s)); [injection H as <- _; now contradiction Hne|].
  destruct (Py.split (Py.strip s)) as [|word args]; [discriminate|].
  destruct (one_of (Py.lower word) ["exit"; "quit"; "q"]); [discriminate|].
  destruct (String.eqb _ "help"); [injection H as <- _; now contradiction Hne|].
  destruct (String.eqb _ "ls").
  { destruct (group_at f cur) as [[a items]|]; [|discriminate].
    injection H as <- _; now contradiction Hne. }
  destruct (String.eqb _ "pwd"); [injection H as <- _; now contradiction Hne|].
  destruct (String.eqb_spec (Py.lower word) "cd") as [Ecd|_].
  { destruct args as [|arg args]; [injection H as <- _; now contradiction Hne|].
    split; [eapply change_directory_moves_silently; eauto | eauto]. }
  destruct (one_of _ ["cat"; "view"]).
  { destruct args as [|arg args]; [injection H as <- _; now contradiction Hne|].
    apply view_dataset_stays in H. now contradiction Hne. }
  destruct (String.eqb _ "attrs").
  { destruct (group_at f cur) as [[a items]|]; [|discriminate].
    apply after_stays in H. now contradiction Hne. }
  injection H as <- _; now contradiction Hne.
Qed.

Lemma dispatch_valid (f : file) (cur : path) (s : string)
    (cur' : path) (out : list line) :
  valid f cur = true -> dispatch f cur s = Continue cur' out ->
  valid f cur' = true.
Proof.
  intros Hv H.
  destruct (list_eq_dec string_dec cur' cur) as [->|Hne]; [exact Hv|].
  pose proof H as H0. unfold dispatch in H.
  destruct (dispatch_moves_only_on_cd _ _ _ _ _ H0 Hne)
    as (_ & word & arg & args & Es & Ecd).
  destruct (Py.is_empty (Py.strip s)); [injection H as <- _; now contradiction Hne|].
  rewrite Es, Ecd in H. simpl in H.
  eapply change_directory_valid; eauto.
Qed.

Lemma loop_locations_valid (f : file) (filename : string)
    (evs : list input_event) (cur : path) :
  valid f cur = true ->
  Forall (fun p => valid f p = true) (locations (loop f filename cur evs)).
Proof.
  revert cur. induction evs as [|ev evs IH]; intros cur Hv; simpl.
  - repeat constructor; exact Hv.
  - destruct ev as [s|]; [|repeat constructor; exact Hv].
    destruct (dispatch f cur s) as [cur' out|out|out e] eqn:E; simpl;
      repeat constructor; trivial.
    apply IH. eapply dispatch_valid; eauto.
Qed.

(** ** Navigation *)

(** The root holds the group [g1], which holds the dataset [d1] of shape
    (5,): enter it, list it, preview the dataset, come back and ask for the
    attributes of [g1]. *)
Example session_in_g1 :
  let s := browse_hdf5 Sample.basename (Ok Sample.the_file) "f.h5"
             [Line "cd g1"; Line "pwd"; Line "cat d1"; Line "cd .."; Line "pwd";
              Line "attrs g1"; Line "cd missing_name"; Line "exit"] in
  visited s = [[]; ["g1"]; ["g1"]; ["g1"]; []; []; []; []] /\
  In (PwdLine "/g1") (output s) /\
  In (DsShape (Some [5])) (output s) /\
  In (DsData (Np.VAxis [] false (map Np.VElem [1; 2; 3; 4; 5]%Z))) (output s) /\
  In (AttrsHeader "/g1") (output s) /\ In AttrsNone (output s) /\
  In (CdNotFound "/" "missing_name") (output s) /\
  file_handle s = Closed.
Proof. vm_compute. tauto. Qed.

Example listing_of_g1 :
  dispatch Sample.the_file ["g1"] "ls" =
  Continue ["g1"]
    [LsHeader "/g1"; LsDataset "d1" (Some [5]) "int64";
     LsDataset "my data" (Some [5]) "int64"].
Proof. reflexivity. Qed.

(** C10: a line that is empty or made of whitespace only runs no command:
    the loop goes on at the same location and prints nothing but the next
    prompt. *)
Theorem blank_line_reprompts (f : file) (filename : string) (cur : path)
    (s : string) (evs : list input_event) :
  Py.whitespace_only s = true ->
  dispatch f cur s = Continue cur [] /\
  printed (loop f filename cur (Line s :: evs)) =
    Prompt filename (name cur) :: printed (loop f filename cur evs) /\
  ended (loop f filename cur (Line s :: evs)) = ended (loop f filename cur evs).
Proof.
  intros H.
  assert (E : dispatch f cur s = Continue cur []).
  { unfold dispatch. now rewrite strip_whitespace. }
  split; [exact E|]. simpl. rewrite E. simpl. split; reflexivity.
Qed.

Lemma blank_line_reprompts_witness :
  Py.whitespace_only "   " = true /\
  dispatch Sample.the_file ["g1"] "   " = Continue ["g1"] [].
Proof.
  split; [reflexivity|].
  apply (blank_line_reprompts Sample.the_file "f.h5" ["g1"] "   " []).
  reflexivity.
Defined.

(** C7: [attrs] hands only the first word after the verb to [print_attrs],
    whatever follows it, where [cd] and [cat] rejoin all the words. At the
    root of the sample file, whose member ["my data"] is a dataset,
    [attrs my data] looks for ["my"] and fails, [cat my data] finds the
    dataset, and [print_attrs] given the whole name reports it. *)
Theorem attrs_takes_first_word :
  (forall f cur s word arg rest a items,
     Py.split (Py.strip s) = word :: arg :: rest ->
     Py.lower word = "attrs" ->
     group_at f cur = Some (a, items) ->
     dispatch f cur s = after cur (print_attrs f cur a (Some arg))) /\
  dispatch Sample.the_file [] "attrs my data" =
    Continue [] [AttrsNotFound "/" "my"] /\
  dispatch Sample.the_file [] "cat my data" =
    Continue [] (fst (print_dataset "/my data" Sample.d1)) /\
  print_attrs Sample.the_file [] [] (Some "my data") =
    ([AttrsHeader "/my data"; AttrsNone], None).
Proof.
  split; [|repeat split; reflexivity].
  intros f cur s word arg rest a items Hs Hw Hg. unfold dispatch.
  destruct (Py.is_empty (Py.strip s)) eqn:E.
  - destruct (Py.strip s); [discriminate Hs | discriminate E].
  - rewrite Hs, Hw, Hg. reflexivity.
Qed.

Lemma attrs_takes_first_word_witness :
  dispatch Sample.the_file ["g1"] "ATTRS my  data" =
    Continue ["g1"] [AttrsNotFound "/g1" "my"].
Proof.
  apply (proj1 attrs_takes_first_word Sample.the_file ["g1"] "ATTRS my  data"
           "ATTRS" "my" ["data"] [] [("d1", Dataset Sample.d1);
                                      ("my data", Dataset Sample.d1)]);
    reflexivity.
Defined.

(** C8: [cd ..] at the root changes nothing and prints the notice that the
    root is reached, which is not an error line; anywhere else the location
    becomes the parent, which is a group. *)
Theorem cd_dotdot (f : file) (cur : path) :
  dispatch f cur "cd .." = change_directory f cur ".." /\
  change_directory f [] ".." = Continue [] [AlreadyAtRoot] /\
  is_error AlreadyAtRoot = false /\
  (cur <> [] -> valid f cur = true ->
   change_directory f cur ".." = Continue (parent cur) [] /\
   is_group f (parent cur) = true).
Proof.
  split; [reflexivity|]. split; [reflexivity|]. split; [reflexivity|].
  intros Hcur Hv. apply andb_prop in Hv as [Hg Hnamed]. split.
  - destruct (change_directory_cases f cur "..")
      as [(_ & Hn & E) | [(_ & _ & E) | [(E & _) | (E & _)]]];
      try discriminate; trivial; try (now contradiction E).
    now apply name_root_iff_nil in Hn.
  - now apply is_group_parent.
Qed.

Lemma cd_dotdot_witness :
  change_directory Sample.the_file ["a"; "b"] ".." = Continue ["a"] [] /\
  is_group Sample.the_file ["a"] = true.
Proof.
  apply (cd_dotdot Sample.the_file ["a"; "b"]); [discriminate | reflexivity].
Defined.

(** C4: [cd] onto a name bound to a dataset prints the kind error and keeps
    the location. For every token, [cd] either returns to the loop with the
    location it started from or, silently, with the parent, the root or the
    group the token leads to; or the token leads to a link without target
    and the [KeyError] of [current_group[...]] leaves the loop before
    [current_group] is assigned: the last location the loop held is the one
    it started from. *)
Theorem cd_all_or_nothing (f : file) (cur : path) (t : string) :
  (forall p d, t <> ".." -> t <> "/" ->
     getitem f cur t = Some (p, Dataset d) ->
     change_directory f cur t = Continue cur [CdIsDataset t]) /\
  ((exists cur' out,
      change_directory f cur t = Continue cur' out /\
      (cur' = cur \/
       out = [] /\
       (t = ".." /\ cur' = parent cur \/
        t = "/" /\ cur' = [] \/
        exists a items, getitem f cur t = Some (cur', Group a items)))) \/
   (exists p,
      getitem f cur t = Some (p, Dangling) /\
      change_directory f cur t = Raised [] (KeyError t))) /\
  (forall filename s rest out e,
     dispatch f cur s = Raised out e ->
     locations (loop f filename cur (Line s :: rest)) = [cur]).
Proof.
  split; [|split].
  - intros p d Hdd Hr G. unfold change_directory.
    destruct (String.eqb_spec t "..") as [E|_]; [now contradiction Hdd|].
    destruct (String.eqb_spec t "/") as [E|_]; [now contradiction Hr|].
    now rewrite G.
  - destruct (change_directory_cases f cur t)
      as [(Et & _ & E) | [(Et & Hn & E) | [(Et & E) | (Hdd & Hr & [(p & a & items & G & E) | [(p & n & G & _ & _ & E) | [(G & E) | (p & G & E)]]])]]].
    + left. exists cur, [AlreadyAtRoot]. auto.
    + left. exists (parent cur), []. split; [exact E|]. right. auto.
    + left. exists [], []. split; [exact E|]. right. auto.
    + left. exists p, []. split; [exact E|]. right. split; [reflexivity|].
      right. right. now exists a, items.
    + left. exists cur, [CdIsDataset t]. auto.
    + left. exists cur, [CdNotFound (name cur) t]. auto.
    + right. exists p. auto.
  - intros filename s rest out e H. simpl. now rewrite H.
Qed.

Lemma cd_all_or_nothing_witness :
  change_directory Sample.the_file ["g1"] "d1" =
    Continue ["g1"] [CdIsDataset "d1"].
Proof.
  apply (proj1 (cd_all_or_nothing Sample.the_file ["g1"] "d1")
           ["g1"; "d1"] Sample.d1);
    [discriminate | discriminate | reflexivity].
Defined.

Example cd_onto_a_link_without_target :
  dispatch Sample.the_file ["misc"] "cd lnk" = Raised [] (KeyError "lnk") /\
  dispatch Sample.the_file [] "cd types/ty" =
    Continue [] [CdIsDataset "types/ty"].
Proof. split; reflexivity. Qed.

(** C1, amended: a token that is one link name (no slash in it, not empty,
    not ["."]) and is not [".."] is looked up by [cd], [cat] and [attrs] as
    the exact name of a member of the current group, and what the command
    does depends on that member alone. *)
Theorem plain_token_is_member_name (f : file) (cur : path) (t : string)
    (Hplain : plain_name t = true) (Hdd : t <> "..") :
  getitem f cur t = child f cur t /\
  change_directory f cur t =
    match child f cur t with
    | Some (p, Group _ _) => Continue p []
    | Some (_, Dangling) => Raised [] (KeyError t)
    | Some (_, _) => Continue cur [CdIsDataset t]
    | None => Continue cur [CdNotFound (name cur) t]
    end /\
  view_dataset f cur t =
    match child f cur t with
    | Some (p, Dataset d) =>
        match print_dataset (name p) d with
        | (out, None) => Continue cur out
        | (out, Some e) => Raised out e
        end
    | Some (_, Dangling) => Raised [] (KeyError t)
    | Some (_, _) => Continue cur [CatIsGroup t]
    | None => Continue cur [CatNotFound (name cur) t]
    end /\
  forall a,
    print_attrs f cur a (Some t) =
    match child f cur t with
    | Some (_, Dangling) => ([], Some (KeyError t))
    | Some (p, n) => attrs_report (name p) (attrs_of n)
    | None => ([AttrsNotFound (name cur) t], None)
    end.
Proof.
  pose proof (getitem_plain f cur t Hplain) as E.
  destruct (plain_name_parts t Hplain) as (Hne & _ & _ & _).
  repeat split.
  - exact E.
  - unfold change_directory.
    destruct (String.eqb_spec t "..") as [->|_]; [now contradiction Hdd|].
    destruct (String.eqb_spec t "/") as [->|_]; [discriminate|].
    now rewrite E.
  - unfold view_dataset. now rewrite E.
  - intros a. unfold print_attrs. now rewrite Hne, E.
Qed.

Lemma plain_token_is_member_name_witness :
  getitem Sample.the_file [] "g1" = child Sample.the_file [] "g1" /\
  change_directory Sample.the_file [] "g1" = Continue ["g1"] [].
Proof.
  split;
    apply (plain_token_is_member_name Sample.the_file [] "g1");
    solve [reflexivity | discriminate].
Defined.

(** C1 as stated fails: no member of the root of the sample file is named
    ["a/b"], yet [cd a/b] enters the group [b] of the group [a], and
    [cat g1/d1] and [attrs a/b] reach through a group in the same way. *)
Lemma slash_token_is_traversed :
  child Sample.the_file [] "a/b" = None /\
  dispatch Sample.the_file [] "cd a/b" = Continue ["a"; "b"] [] /\
  dispatch Sample.the_file [] "cat g1/d1" =
    Continue [] (fst (print_dataset "/g1/d1" Sample.d1)) /\
  dispatch Sample.the_file [] "attrs a/b" =
    Continue [] [AttrsHeader "/a/b"; AttrsNone].
Proof. repeat split; reflexivity. Qed.

(** C9: the location held at every prompt of a session denotes a group of
    the file, the first one being the root; and a turn of the loop that
    changes the location is a [cd] with an argument that printed no error
    (nothing at all). *)
Theorem current_group_is_group (basename : string -> string) (f : file)
    (filepath : string) (evs : list input_event) :
  let s := browse_hdf5 basename (Ok f) filepath evs in
  hd_error (visited s) = Some [] /\
  Forall (fun p => is_group f p = true) (visited s) /\
  forall cur line cur' out,
    dispatch f cur line = Continue cur' out -> cur' <> cur ->
    out = [] /\
    exists word arg args,
      Py.split (Py.strip line) = word :: arg :: args /\ Py.lower word = "cd".
Proof.
  simpl. split; [|split].
  - destruct evs as [|[l|] evs]; simpl; trivial.
    destruct (dispatch f [] l); reflexivity.
  - pose proof (loop_locations_valid f (basename filepath) evs [] (valid_root f)) as H.
    eapply Forall_impl; [|exact H].
    intros p Hp. now apply andb_prop in Hp as [Hg _].
  - intros cur line cur' out. apply dispatch_moves_only_on_cd.
Qed.

Lemma current_group_is_group_witness :
  dispatch Sample.the_file [] "cd g1" = Continue ["g1"] [] /\
  visited (browse_hdf5 Sample.basename (Ok Sample.the_file) "f.h5"
             [Line "cd g1"; Line "cat d1"; Line "cd d1"; Line "CD .."; Line "q"])
  = [[]; ["g1"]; ["g1"]; ["g1"]; []] /\
  ([] : list line) = [].
Proof.
  split; [reflexivity|]. split; [reflexivity|].
  apply (proj2 (proj2 (current_group_is_group Sample.basename Sample.the_file
                         "f.h5" [Line "cd g1"])) [] "cd g1" ["g1"] []);
    [reflexivity | discriminate].
Defined.

(** ** Listing *)

Lemma ltb_of_leb (a b : string) :
  String.leb a b = true -> a <> b -> String.ltb a b = true.
Proof.
  unfold String.leb, String.ltb. intros H Hne.
  destruct (String.compare a b) eqn:E; try reflexivity; try discriminate.
  now apply String.compare_eq_iff in E.
Qed.

Lemma leb_of_not_leb (a b : string) :
  String.leb a b = false -> String.leb b a = true.
Proof.
  intros H. destruct (String.leb_total a b) as [E|E]; [congruence | exact E].
Qed.

Lemma insert_sorted_perm (x : string) (l : list string) :
  Permutation (Py.insert_sorted x l) (x :: l).
Proof.
  induction l as [|y l IH]; simpl; [reflexivity|].
  destruct (String.leb x y); [reflexivity|].
  rewrite IH. apply perm_swap.
Qed.

Lemma sorted_perm (l : list string) : Permutation (Py.sorted l) l.
Proof.
  induction l as [|x l IH]; simpl; [reflexivity|].
  rewrite insert_sorted_perm. now constructor.
Qed.

Lemma insert_sorted_ascending (x : string) (l : list string) :
  Sorted (fun a b => String.leb a b = true) l ->
  Sorted (fun a b => String.leb a b = true) (Py.insert_sorted x l).
Proof.
  induction 1 as [|y l Hs IH Hhd]; simpl; [repeat constructor|].
  destruct (String.leb x y) eqn:E.
  - repeat constructor; trivial.
  - constructor; [exact IH|].
    destruct Hhd as [|z l Hyz]; simpl.
    + constructor. now apply leb_of_not_leb.
    + destruct (String.leb x z); constructor; trivial. now apply leb_of_not_leb.
Qed.

Lemma sorted_ascending (l : list string) :
  Sorted (fun a b => String.leb a b = true) (Py.sorted l).
Proof.
  induction l as [|x l IH]; simpl; [constructor|].
  now apply insert_sorted_ascending.
Qed.

(** Without duplicates, an ascending list is strictly ascending. *)
Lemma ascending_strict (l : list string) :
  NoDup l -> Sorted (fun a b => String.leb a b = true) l -> Sorted Py.lt l.
Proof.
  intros Hnd Hs. induction Hs as [|x l Hs IH Hhd]; [constructor|].
  inversion Hnd as [|? ? Hx Hnd']; subst.
  constructor; [now apply IH|].
  destruct Hhd as [|y l Hxy]; constructor.
  apply ltb_of_leb; [exact Hxy|]. intros ->. apply Hx. now left.
Qed.

Lemma sorted_strict (l : list string) : NoDup l -> Sorted Py.lt (Py.sorted l).
Proof.
  intros H. apply ascending_strict; [|apply sorted_ascending].
  eapply Permutation_NoDup; [|exact H]. symmetry. apply sorted_perm.
Qed.

Lemma kinds_partition (items : list (string * node)) :
  Permutation (group_names items ++ dataset_names items)
              (map fst (filter listed items)).
Proof.
  unfold group_names, dataset_names, listed.
  induction items as [|[k [a sub|d|a|]] items IH]; simpl; trivial.
  - now constructor.
  - rewrite <- Permutation_middle. now constructor.
Qed.

Lemma NoDup_names_filter (g : string * node -> bool) (items : list (string * node)) :
  NoDup (map fst items) -> NoDup (map fst (filter g items)).
Proof.
  induction items as [|kn items IH]; simpl; [trivial|].
  intros H. inversion H as [|? ? Hk Hnd]; subst.
  destruct (g kn); simpl; [|now apply IH].
  constructor; [|now apply IH]. intros Hin. apply Hk.
  apply in_map_iff in Hin as (x & Hx & Hf). apply filter_In in Hf as [Hf _].
  apply in_map_iff. eauto.
Qed.

Lemma in_group_names (items : list (string * node)) (g : string) :
  In g (group_names items) <-> exists a sub, In (g, Group a sub) items.
Proof.
  unfold group_names. rewrite in_map_iff. split.
  - intros ([k [a sub|d|a|]] & <- & H); apply filter_In in H as [H E];
      try discriminate. eauto.
  - intros (a & sub & H). exists (g, Group a sub). split; [reflexivity|].
    apply filter_In. now split.
Qed.

Lemma in_dataset_names (items : list (string * node)) (d : string) :
  In d (dataset_names items) <-> exists x, In (d, Dataset x) items.
Proof.
  unfold dataset_names. rewrite in_map_iff. split.
  - intros ([k [a sub|x|a|]] & <- & H); apply filter_In in H as [H E];
      try discriminate. eauto.
  - intros (x & H). exists (d, Dataset x). split; [reflexivity|].
    apply filter_In. now split.
Qed.

Lemma ls_dataset_line_not_empty (f : file) (cur : path) (d : string) :
  ls_dataset_line f cur d <> LsEmpty.
Proof.
  unfold ls_dataset_line.
  destruct (getitem f cur d) as [[p [a sub|x|a|]]|]; try discriminate.
  destruct (shape x), (dtype x); discriminate.
Qed.

(** The listing of a group with a member that is a group or a dataset. *)
Lemma print_ls_members (f : file) (cur : path) (items : list (string * node)) :
  (exists kn, In kn items /\ listed kn = true) ->
  print_ls f cur items =
  LsHeader (name cur) ::
    map LsGroup (Py.sorted (group_names items)) ++
    map (ls_dataset_line f cur) (Py.sorted (dataset_names items)).
Proof.
  intros ([k n] & Hin & Hl). unfold print_ls.
  destruct (group_names items) as [|g gs] eqn:Eg; [|reflexivity].
  destruct (dataset_names items) as [|d ds] eqn:Ed; [|reflexivity].
  exfalso. unfold listed in Hl. simpl in Hl.
  destruct n as [a sub|x|a|]; try discriminate.
  - assert (H : In k (group_names items)) by (apply in_group_names; eauto).
    now rewrite Eg in H.
  - assert (H : In k (dataset_names items)) by (apply in_dataset_names; eauto).
    now rewrite Ed in H.
Qed.

(** C6, amended: for a group whose member names are distinct, the listing
    splits the members that are groups or datasets by kind into the group
    names and the dataset names, each strictly ascending, which together are
    exactly the names of these members, none twice; when there is such a
    member the printed listing is these two runs in this order; a group with
    no member gets the line telling that the level is empty, and a group
    with a group or a dataset in it never does. *)
Theorem listing_partitions_members (f : file) (cur : path)
    (items : list (string * node)) (Hnames : NoDup (map fst items)) :
  let gs := Py.sorted (group_names items) in
  let ds := Py.sorted (dataset_names items) in
  Sorted Py.lt gs /\ Sorted Py.lt ds /\
  Permutation (gs ++ ds) (map fst (filter listed items)) /\ NoDup (gs ++ ds) /\
  (forall g, In g gs <-> exists a sub, In (g, Group a sub) items) /\
  (forall d, In d ds <-> exists x, In (d, Dataset x) items) /\
  ((exists kn, In kn items /\ listed kn = true) ->
   print_ls f cur items =
     LsHeader (name cur) :: map LsGroup gs ++ map (ls_dataset_line f cur) ds) /\
  (items = [] -> print_ls f cur items = [LsHeader (name cur); LsEmpty]) /\
  (In LsEmpty (print_ls f cur items) ->
   forall kn, In kn items -> listed kn = false).
Proof.
  intros gs ds.
  assert (Hperm : Permutation (gs ++ ds) (map fst (filter listed items))).
  { unfold gs, ds. rewrite !sorted_perm. apply kinds_partition. }
  assert (Hnd : NoDup (gs ++ ds)).
  { eapply Permutation_NoDup; [symmetry; exact Hperm|].
    now apply NoDup_names_filter. }
  assert (Hparts : NoDup (group_names items) /\ NoDup (dataset_names items)).
  { split; now apply NoDup_names_filter. }
  destruct Hparts as [Hg Hd].
  split; [now apply sorted_strict|]. split; [now apply sorted_strict|].
  split; [exact Hperm|]. split; [exact Hnd|].
  split.
  { intros g. unfold gs. rewrite <- in_group_names. split; intros H.
    - eapply Permutation_in; [apply sorted_perm | exact H].
    - eapply Permutation_in; [symmetry; apply sorted_perm | exact H]. }
  split.
  { intros d. unfold ds. rewrite <- in_dataset_names. split; intros H.
    - eapply Permutation_in; [apply sorted_perm | exact H].
    - eapply Permutation_in; [symmetry; apply sorted_perm | exact H]. }
  split; [apply print_ls_members|]. split; [now intros ->|].
  intros Hempty kn Hin. destruct (listed kn) eqn:Hl; [|reflexivity]. exfalso.
  rewrite print_ls_members in Hempty by eauto.
  destruct Hempty as [H|H]; [discriminate|].
  apply in_app_or in H as [H|H]; apply in_map_iff in H as (x & H & _);
    [discriminate | now apply ls_dataset_line_not_empty in H].
Qed.

Lemma listing_partitions_members_witness :
  NoDup (map fst (root_items Sample.the_file)) /\
  print_ls Sample.the_file [] (root_items Sample.the_file) =
    [LsHeader "/"; LsGroup "a"; LsGroup "g1"; LsGroup "misc"; LsGroup "types";
     LsDataset "my data" (Some [5]) "int64"; LsDataset "odd" (Some [2]) "int64";
     LsDataset "wide" (Some [11; 11]) "int64"].
Proof.
  assert (H : NoDup (map fst (root_items Sample.the_file))).
  { simpl. repeat constructor; simpl; intuition discriminate. }
  split; [exact H|].
  apply (listing_partitions_members Sample.the_file [] _ H).
  exists ("g1", Group [] [("d1", Dataset Sample.d1);
                          ("my data", Dataset Sample.d1)]).
  split; [now left | reflexivity].
Defined.

(** C6 as stated fails: the group [/types] holds a committed datatype, which
    [print_ls] puts in neither list: the names it lists are not the member
    names, and it prints that the level is empty. In [/misc] the link without
    target is left out in the same way. *)
Lemma datatype_is_not_listed :
  group_at Sample.the_file ["types"] = Some ([], [("ty", Datatype [])]) /\
  dispatch Sample.the_file ["types"] "ls" =
    Continue ["types"] [LsHeader "/types"; LsEmpty] /\
  dispatch Sample.the_file ["misc"] "ls" =
    Continue ["misc"] [LsHeader "/misc"; LsDataset "t" (Some [1]) "int64"].
Proof. repeat split; reflexivity. Qed.

(** ** Data preview *)

(** Induction on an array with the hypothesis for every item of an axis. *)
Lemma ndarray_items_ind (P : Np.ndarray -> Prop)
    (HElem : forall x, P (Np.Elem x))
    (HAxis : forall items, Forall P items -> P (Np.Axis items)) :
  forall a, P a.
Proof.
  fix IH 1. intros [x|items]; [apply HElem|].
  apply HAxis. induction items as [|b items IHitems]; constructor.
  - apply IH.
  - exact IHitems.
Qed.

Lemma flat_map_map_ext {A B C : Type} (g : B -> list C) (h : A -> B)
    (k : A -> list C) (l : list A) :
  Forall (fun a => g (h a) = k a) l -> flat_map g (map h l) = flat_map k l.
Proof.
  induction 1 as [|a l Ha _ IH]; simpl; [reflexivity|]. now rewrite Ha, IH.
Qed.

Lemma existsb_map_ext {A B : Type} (g : B -> bool) (h : A -> B)
    (k : A -> bool) (l : list A) :
  Forall (fun a => g (h a) = k a) l -> existsb g (map h l) = existsb k l.
Proof.
  induction 1 as [|a l Ha _ IH]; simpl; [reflexivity|]. now rewrite Ha, IH.
Qed.

Lemma forallb_map_all {A B : Type} (g : B -> bool) (h : A -> B) (l : list A) :
  Forall (fun a => g (h a) = true) l -> forallb g (map h l) = true.
Proof.
  induction 1 as [|a l Ha _ IH]; simpl; [reflexivity|]. now rewrite Ha, IH.
Qed.

Lemma forallb_firstn {A : Type} (g : A -> bool) (n : nat) (l : list A) :
  forallb g l = true -> forallb g (firstn n l) = true.
Proof.
  revert l. induction n as [|n IH]; intros [|a l]; simpl; trivial.
  intros H. apply andb_prop in H as [Ha Hl]. now rewrite Ha, IH.
Qed.

Lemma forallb_skipn {A : Type} (g : A -> bool) (n : nat) (l : list A) :
  forallb g l = true -> forallb g (skipn n l) = true.
Proof.
  revert l. induction n as [|n IH]; intros [|a l]; simpl; trivial.
  intros H. apply andb_prop in H as [_ Hl]. now apply IH.
Qed.

(** Without summary every element is printed and no marker is. *)
Lemma format_full (e : nat) (a : Np.ndarray) :
  Np.shown (Np.format_array e false a) = Np.elements a /\
  Np.has_marker (Np.format_array e false a) = false.
Proof.
  induction a as [x|items IH] using ndarray_items_ind; simpl; [auto|].
  split.
  - apply flat_map_map_ext. eapply Forall_impl; [|exact IH]. now intros a [H _].
  - rewrite (existsb_map_ext _ _ (fun _ => false)).
    + clear IH. induction items; simpl; auto.
    + eapply Forall_impl; [|exact IH]. now intros a [_ H].
Qed.

(** With summary, the marker is printed exactly when some axis has more
    than twice [edgeitems] items. *)
Lemma format_summary_marker (e : nat) (a : Np.ndarray) :
  Np.has_marker (Np.format_array e true a) = Np.long_axis (2 * e) a.
Proof.
  induction a as [x|items IH] using ndarray_items_ind; [reflexivity|].
  cbn [Np.format_array Np.long_axis andb].
  destruct (2 * e <? length items)%nat eqn:E; [reflexivity|].
  cbn [Np.has_marker existsb orb]. now apply existsb_map_ext.
Qed.

Lemma existsb_false_all {A : Type} (g : A -> bool) (l : list A) :
  existsb g l = false -> Forall (fun a => g a = false) l.
Proof.
  induction l as [|a l IH]; simpl; [constructor|].
  intros H. apply orb_false_elim in H as [Ha Hl]. constructor; auto.
Qed.

(** A printed array without marker shows every element. *)
Lemma format_no_marker_all_shown (e : nat) (b : bool) (a : Np.ndarray) :
  Np.has_marker (Np.format_array e b a) = false ->
  Np.shown (Np.format_array e b a) = Np.elements a.
Proof.
  destruct b; [|intros _; apply format_full].
  induction a as [x|items IH] using ndarray_items_ind; [reflexivity|].
  cbn [Np.format_array andb].
  destruct (2 * e <? length items)%nat eqn:E; [discriminate|].
  cbn [Np.has_marker Np.shown existsb orb flat_map app]. intros H.
  apply flat_map_map_ext.
  assert (Hitems : Forall (fun a => Np.has_marker (Np.format_array e true a) = false) items).
  { apply existsb_false_all in H. rewrite Forall_map in H. exact H. }
  clear H E. induction IH as [|a items Ha _ IHitems]; [constructor|].
  inversion Hitems; subst. constructor; auto.
Qed.

(** C5: the preview of a dataset of 11 x 11 elements. It has more than 100
    elements, the number above which the comment of [print_dataset] says an
    array is folded, and its preview shows all 121 of them with no elision
    marker on any axis: numpy folds an axis only when it has more than
    [2 * edgeitems] items. *)
Theorem preview_of_11_by_11_has_no_marker :
  100 < Np.size Sample.grid11 /\
  In (DsData (Np.array2string preview_threshold preview_edgeitems Sample.grid11))
     (fst (print_dataset "/wide" Sample.wide)) /\
  Np.has_marker
    (Np.array2string preview_threshold preview_edgeitems Sample.grid11) = false /\
  length (Np.shown
    (Np.array2string preview_threshold preview_edgeitems Sample.grid11)) = 121.
Proof.
  split; [vm_compute; lia|]. split; [|split; reflexivity].
  vm_compute. tauto.
Qed.

(** ** Errors and the end of a session *)

Example errors_are_printed :
  dispatch Sample.the_file [] "cd nowhere" =
    Continue [] [CdNotFound "/" "nowhere"] /\
  dispatch Sample.the_file [] "cat nowhere" =
    Continue [] [CatNotFound "/" "nowhere"] /\
  dispatch Sample.the_file [] "CAT g1" = Continue [] [CatIsGroup "g1"] /\
  dispatch Sample.the_file [] "cd wide" = Continue [] [CdIsDataset "wide"] /\
  dispatch Sample.the_file [] "cd" = Continue [] [CdUsage] /\
  dispatch Sample.the_file [] "view" = Continue [] [CatUsage] /\
  dispatch Sample.the_file [] "Dir g1" = Continue [] [UnknownCommand "dir"].
Proof. repeat split; reflexivity. Qed.

Example lookup_is_case_sensitive :
  dispatch Sample.the_file [] "cd G1" = Continue [] [CdNotFound "/" "G1"] /\
  dispatch Sample.the_file [] "CD g1" = Continue ["g1"] [].
Proof. split; reflexivity. Qed.

Lemma dispatch_breaks_on_exit (f : file) (cur : path) (s : string)
    (out : list line) :
  dispatch f cur s = Break out ->
  out = [Goodbye] /\
  exists word args,
    Py.split (Py.strip s) = word :: args /\
    one_of (Py.lower word) ["exit"; "quit"; "q"] = true.
Proof.
  unfold dispatch.
  destruct (Py.is_empty (Py.strip s)); [discriminate|].
  destruct (Py.split (Py.strip s)) as [|word args]; [discriminate|].
  destruct (one_of (Py.lower word) ["exit"; "quit"; "q"]) eqn:E.
  { intros H. injection H as <-. eauto. }
  destruct (String.eqb _ "help"); [discriminate|].
  destruct (String.eqb _ "ls"); [destruct (group_at f cur) as [[? ?]|]; discriminate|].
  destruct (String.eqb _ "pwd"); [discriminate|].
  destruct (String.eqb _ "cd").
  { destruct args as [|arg args]; [discriminate|].
    destruct (change_directory_cases f cur (Py.join_spaces (arg :: args)))
      as [(_ & _ & E') | [(_ & _ & E') | [(_ & E') | (_ & _ & [(p & b & sub & _ & E') | [(p & n & _ & _ & _ & E') | [(_ & E') | (p & _ & E')]]])]]];
      rewrite E'; discriminate. }
  destruct (one_of _ ["cat"; "view"]).
  { destruct args as [|arg args]; [discriminate|].
    unfold view_dataset.
    destruct (getitem f cur _) as [[p [b sub|d|b|]]|]; try discriminate.
    destruct (print_dataset (name p) d) as [o [e'|]]; discriminate. }
  destruct (String.eqb _ "attrs"); [|discriminate].
  destruct (group_at f cur) as [[? ?]|]; [|discriminate].
  destruct (print_attrs f cur a (hd_error args)) as [o [e'|]]; discriminate.
Qed.

(** C2: commands whose error is not turned into a message. The read of
    [/odd] raises a [TypeError]: the handler of [print_dataset] reads the
    data again and the exception leaves [cat odd], the loop and
    [browse_hdf5], so the next line of the input is never read. The same
    happens when [cd], [cat] or [attrs] index a link without target, and when
    [attrs] or [cat] reach an attribute whose value cannot be read. *)
Theorem type_error_ends_the_session :
  snd (print_dataset "/odd" Sample.odd) = Some (TypeError "no conversion") /\
  (exists out,
     dispatch Sample.the_file [] "cat odd" =
     Raised out (TypeError "no conversion")) /\
  raised (browse_hdf5 Sample.basename (Ok Sample.the_file) "f.h5"
            [Line "cat odd"; Line "pwd"]) = Some (TypeError "no conversion") /\
  visited (browse_hdf5 Sample.basename (Ok Sample.the_file) "f.h5"
             [Line "cat odd"; Line "pwd"]) = [[]] /\
  dispatch Sample.the_file ["misc"] "cd lnk" = Raised [] (KeyError "lnk") /\
  dispatch Sample.the_file ["misc"] "cat lnk" = Raised [] (KeyError "lnk") /\
  dispatch Sample.the_file ["misc"] "attrs lnk" = Raised [] (KeyError "lnk") /\
  dispatch Sample.the_file ["misc"] "attrs t" =
    Raised [AttrsHeader "/misc/t"; AttrsEntry "unit" "m"]
           (TypeError "no conversion").
Proof.
  split; [reflexivity|]. split; [eexists; reflexivity|]. repeat split; reflexivity.
Qed.

(** C3: the file is left open. The exception raised by [cat odd] leaves
    [browse_hdf5] before [f.close()], the statement after the loop, and is
    reported by the handler of the entry point. *)
Theorem type_error_skips_close :
  file_handle (browse_hdf5 Sample.basename (Ok Sample.the_file) "f.h5"
                 [Line "cat odd"; Line "exit"]) = StillOpen /\
  main Sample.basename (Ok Sample.the_file) "f.h5" [Line "cat odd"; Line "exit"] =
    SelectedFile "f.h5" ::
    output (browse_hdf5 Sample.basename (Ok Sample.the_file) "f.h5"
              [Line "cat odd"]) ++
    [TopLevelError (TypeError "no conversion")] /\
  file_handle (browse_hdf5 Sample.basename (Ok Sample.the_file) "f.h5"
                 [Line "cd misc"; Line "cd lnk"; Line "exit"]) = StillOpen /\
  file_handle (browse_hdf5 Sample.basename (Ok Sample.the_file) "f.h5"
                 [Line "cd misc"; Line "ls"; Line "exit"]) = Closed.
Proof. repeat split; reflexivity. Qed.

(** * Further properties of the script *)

(** ** The command line *)

Lemma pieces_app (sep : ascii -> bool) (s w r : string) :
  Py.free_of sep s = true ->
  Py.pieces sep w (String.append s r) = Py.pieces sep (String.append w s) r.
Proof.
  revert w. induction s as [|c s IH]; intros w H; simpl.
  - now rewrite append_empty_r.
  - simpl in H. apply andb_prop in H as [Hc Hs]. apply negb_true_iff in Hc.
    rewrite Hc, IH by exact Hs. now rewrite append_assoc.
Qed.

Lemma free_of_app (sep : ascii -> bool) (a b : string) :
  Py.free_of sep (String.append a b) = Py.free_of sep a && Py.free_of sep b.
Proof.
  induction a as [|c a IH]; simpl; [reflexivity|].
  now rewrite IH, andb_assoc.
Qed.

(** The pieces cut at [sep] are not empty and hold no [sep]. *)
Lemma pieces_clean (sep : ascii -> bool) (s w : string) :
  Py.free_of sep w = true ->
  Forall (fun x => Py.is_empty x = false /\ Py.free_of sep x = true)
         (Py.pieces sep w s).
Proof.
  assert (Hflush : forall v, Py.free_of sep v = true ->
            Forall (fun x => Py.is_empty x = false /\ Py.free_of sep x = true)
                   (Py.flush v)).
  { intros v Hv. unfold Py.flush. destruct (Py.is_empty v) eqn:E; auto. }
  revert w. induction s as [|c s IH]; intros w Hw; simpl; [now apply Hflush|].
  destruct (sep c) eqn:Ec.
  - apply Forall_app. split; [now apply Hflush | now apply IH].
  - apply IH. rewrite free_of_app, Hw. simpl. now rewrite Ec.
Qed.

Lemma split_gives_words (s : string) :
  Forall (fun w => Py.word w = true) (Py.split s).
Proof.
  eapply Forall_impl; [|apply (pieces_clean Py.is_space s EmptyString eq_refl)].
  intros w [Hne Hfree]. unfold Py.word. now rewrite Hne, Hfree.
Qed.

Lemma split_lstrip (s : string) : Py.split (Py.lstrip s) = Py.split s.
Proof.
  induction s as [|c s IH]; [reflexivity|]. unfold Py.split in *. simpl.
  destruct (Py.is_space c) eqn:E; [exact IH|]. simpl. now rewrite E.
Qed.

Lemma is_empty_eq (s : string) : Py.is_empty s = true -> s = EmptyString.
Proof. now destruct s. Qed.

Lemma pieces_rstrip (s w : string) :
  Py.pieces Py.is_space w (Py.rstrip s) = Py.pieces Py.is_space w s.
Proof.
  revert w. induction s as [|c s IH]; intros w; [reflexivity|]. simpl.
  destruct (Py.is_space c) eqn:Ec; simpl.
  - destruct (Py.is_empty (Py.rstrip s)) eqn:Er.
    + rewrite <- IH, (is_empty_eq _ Er). simpl. now rewrite app_nil_r.
    + simpl. rewrite Ec. now rewrite IH.
  - rewrite Ec. apply IH.
Qed.

(** Stripping a line does not change its words. *)
Lemma split_strip (s : string) : Py.split (Py.strip s) = Py.split s.
Proof.
  unfold Py.strip. unfold Py.split at 1. rewrite pieces_rstrip.
  apply split_lstrip.
Qed.

Lemma strip_empty_no_word (s : string) :
  Py.is_empty (Py.strip s) = true <-> Py.split s = [].
Proof.
  split; intros H.
  - rewrite <- split_strip, (is_empty_eq _ H). reflexivity.
  - destruct (Py.is_empty (Py.strip s)) eqn:E; [reflexivity|].
    apply split_strip_not_nil in E. rewrite split_strip in E. now contradiction E.
Qed.

(** The loop reads a line as its words, the first one in lower case: two
    lines with the same verb up to letter case and the same words after it
    do the same, whatever whitespace surrounds or separates the words. *)
Theorem dispatch_reads_words (f : file) (cur : path) (s s' : string) :
  command s = command s' -> dispatch f cur s = dispatch f cur s'.
Proof.
  unfold command, dispatch. rewrite !split_strip.
  pose proof (strip_empty_no_word s) as Hs.
  pose proof (strip_empty_no_word s') as Hs'.
  destruct (Py.split s) as [|w args], (Py.split s') as [|w' args'];
    try discriminate.
  - intros _. rewrite (proj2 Hs eq_refl), (proj2 Hs' eq_refl). reflexivity.
  - intros H. injection H as Hw <-.
    destruct (Py.is_empty (Py.strip s)); [now apply proj1 in Hs; discriminate Hs|].
    destruct (Py.is_empty (Py.strip s')); [now apply proj1 in Hs'; discriminate Hs'|].
    now rewrite Hw.
Qed.

Lemma dispatch_reads_words_witness :
  dispatch Sample.the_file [] "   CD    g1  " = dispatch Sample.the_file [] "cd g1".
Proof.
  apply (dispatch_reads_words Sample.the_file [] "   CD    g1  " "cd g1").
  reflexivity.
Defined.

Lemma concat_cons (sep x : string) (xs : list string) :
  xs <> [] ->
  String.concat sep (x :: xs) = String.append x (String.append sep (String.concat sep xs)).
Proof. destruct xs; [intros H; now contradiction H | reflexivity]. Qed.

Lemma split_join_words (ws : list string) :
  Forall (fun w => Py.word w = true) ws ->
  Py.split (Py.join_spaces ws) = ws.
Proof.
  unfold Py.split, Py.join_spaces.
  induction 1 as [|w ws Hw Hws IH]; [reflexivity|].
  apply andb_prop in Hw as [Hne Hfree]. apply negb_true_iff in Hne.
  destruct ws as [|x ws].
  - simpl. rewrite <- (append_empty_r w) at 1. rewrite pieces_app by exact Hfree.
    simpl. unfold Py.flush. now rewrite Hne.
  - rewrite concat_cons by discriminate. rewrite pieces_app by exact Hfree.
    cbn [String.append Py.pieces].
    change (Py.is_space " ") with true. cbn iota.
    unfold Py.flush. rewrite Hne, IH. reflexivity.
Qed.

(** The target of [cd] and [cat] is the words after the verb joined by one
    space each: cut into words again it gives the same words, so runs of
    whitespace in a name typed at the prompt are not kept. *)
Theorem target_is_normalised (s : string) :
  Py.split (Py.join_spaces (Py.split s)) = Py.split s /\
  Py.join_spaces (Py.split (Py.join_spaces (Py.split s))) =
  Py.join_spaces (Py.split s).
Proof.
  assert (H : Py.split (Py.join_spaces (Py.split s)) = Py.split s)
    by apply split_join_words, split_gives_words.
  split; [exact H | now rewrite H].
Qed.

(** ** Paths as targets *)

Lemma node_at_prefix (f : file) (p q : path) (n : node) :
  node_at f (p ++ q) = Some n -> exists m, node_at f p = Some m.
Proof.
  unfold node_at. rewrite walk_app.
  destruct (walk (root f) p) as [m|]; [eauto | discriminate].
Qed.

Lemma resolve_some (f : file) (comps : list string) (loc p : path) :
  resolve f loc comps = Some p -> p = loc ++ moving comps.
Proof.
  revert loc. induction comps as [|c cs IH]; intros loc; simpl.
  - intros H. injection H as <-. now rewrite app_nil_r.
  - destruct (String.eqb c "."); simpl.
    { destruct (group_at f loc); [apply IH | discriminate]. }
    destruct (node_at f (loc ++ [c])); [|discriminate].
    intros H. apply IH in H. now rewrite <- app_assoc in H.
Qed.

Lemma moving_dotless (comps : list string) :
  dotless comps = true -> moving comps = comps.
Proof.
  unfold dotless, moving. induction comps as [|c cs IH]; simpl; [reflexivity|].
  intros H. apply andb_prop in H as [Hc Hcs]. rewrite Hc. now rewrite IH.
Qed.

Lemma resolve_none (f : file) (comps : list string) (loc : path) :
  dotless comps = true ->
  resolve f loc comps = None -> node_at f (loc ++ comps) = None.
Proof.
  revert loc. induction comps as [|c cs IH]; intros loc Hd; simpl; [discriminate|].
  unfold dotless in Hd. simpl in Hd. apply andb_prop in Hd as [Hc Hcs].
  apply negb_true_iff in Hc. rewrite Hc.
  destruct (node_at f (loc ++ [c])) as [m|] eqn:E.
  - intros H. apply IH in H; [|exact Hcs]. now rewrite <- app_assoc in H.
  - intros _. destruct (node_at f (loc ++ c :: cs)) as [n|] eqn:En;
      [|reflexivity].
    change (c :: cs) with ([c] ++ cs) in En.
    rewrite app_assoc in En. apply node_at_prefix in En as [m Hm]. congruence.
Qed.

(** For a path without ["."] in it, [group[nm]] is the object found by
    walking down its components, from the root when [nm] starts with a slash
    and from the group otherwise. *)
Lemma getitem_walks (f : file) (loc : path) (nm : string) :
  Py.is_empty nm = false -> dotless (components nm) = true ->
  getitem f loc nm =
  let p := (if absolute nm then [] else loc) ++ components nm in
  match node_at f p with
  | Some n => Some (p, n)
  | None => None
  end.
Proof.
  intros Hne Hd. unfold getitem. rewrite Hne. cbv zeta.
  destruct (resolve f _ _) as [q|] eqn:E.
  - apply resolve_some in E. rewrite (moving_dotless _ Hd) in E. now subst q.
  - apply resolve_none in E; [|exact Hd].
    match goal with
    | |- None = match ?x with _ => _ end =>
        replace x with (@None node) by (symmetry; exact E)
    end.
    reflexivity.
Qed.

Lemma cd_moves_iff (f : file) (cur : path) (t : string) (p : path) :
  t <> ".." -> t <> "/" ->
  (change_directory f cur t = Continue p [] <->
   exists a items, getitem f cur t = Some (p, Group a items)).
Proof.
  intros Hdd Hr.
  destruct (change_directory_cases f cur t)
    as [(Et & _) | [(Et & _) | [(Et & _) | (_ & _ & [(q & a & items & G & E) | [(q & n & G & Hn & _ & E) | [(G & E) | (q & G & E)]]])]]];
    try (now contradiction).
  - rewrite E, G. split.
    + intros H. injection H as <-. eauto.
    + intros (b & sub & H). now injection H as <- _ _.
  - rewrite E, G. split; [discriminate|]. intros (b & sub & H).
    injection H as _ ->. discriminate.
  - rewrite E, G. split; [discriminate|]. intros (b & sub & H). discriminate.
  - rewrite E, G. split; [discriminate|]. intros (b & sub & H). discriminate.
Qed.

Lemma plain_name_moving (c : string) :
  plain_name c = true -> moving [c] = [c].
Proof.
  intros H. destruct (plain_name_parts c H) as (_ & _ & _ & Hdot).
  unfold moving. simpl. now rewrite Hdot.
Qed.

Lemma plain_name_named (c : string) : plain_name c = true -> named c = true.
Proof.
  intros H. destruct (plain_name_parts c H) as (Hne & _). unfold named.
  now rewrite Hne.
Qed.

Lemma plain_path_named (p : path) :
  plain_path p = true -> forallb named p = true.
Proof.
  unfold plain_path. induction p as [|c p IH]; simpl; [reflexivity|].
  intros H. apply andb_prop in H as [Hc Hp].
  now rewrite (plain_name_named c Hc), IH.
Qed.

(** Entering a member group and then [cd ..] leads back. *)
Theorem cd_member_then_dotdot (f : file) (cur : path) (t : string) (q : path)
    (Hv : valid f cur = true) (Hplain : plain_name t = true) (Hdd : t <> "..")
    (Hcd : change_directory f cur t = Continue q []) :
  q = cur ++ [t] /\ name q <> "/" /\
  change_directory f q ".." = Continue cur [].
Proof.
  assert (Hr : t <> "/") by (intros ->; discriminate Hplain).
  apply (cd_moves_iff f cur t q Hdd Hr) in Hcd as (a & items & G).
  rewrite getitem_plain in G by exact Hplain. unfold child in G.
  destruct (group_at f cur) as [[b sub]|]; [|discriminate].
  destruct (find_item t sub); [|discriminate]. injection G as <- _.
  apply andb_prop in Hv as [_ Hn].
  assert (Hname : name (cur ++ [t]) <> "/").
  { intros E. apply name_root_iff_nil in E; [now destruct cur|].
    rewrite forallb_app, Hn. simpl. now rewrite (plain_name_named t Hplain). }
  split; [reflexivity|]. split; [exact Hname|].
  destruct (change_directory_cases f (cur ++ [t]) "..")
    as [(_ & E & _) | [(_ & _ & E) | [(E & _) | (E & _)]]];
    try discriminate; try (now contradiction).
  rewrite E. unfold parent. now rewrite removelast_last.
Qed.

Lemma cd_member_then_dotdot_witness :
  change_directory Sample.the_file ["a"] ".." = Continue [] [].
Proof.
  apply (cd_member_then_dotdot Sample.the_file [] "a" ["a"]);
    solve [reflexivity | discriminate].
Defined.

Lemma no_slash_free_of (s : string) : no_slash s = Py.free_of is_slash s.
Proof. induction s as [|c s IH]; simpl; [reflexivity | now rewrite IH]. Qed.

Lemma components_two (a b : string) :
  plain_name a = true -> plain_name b = true ->
  components (String.append a (String "/" b)) = [a; b].
Proof.
  intros Ha Hb. unfold plain_name in Ha, Hb.
  apply andb_prop in Ha as [Ha _]. apply andb_prop in Ha as [Hane Hafree].
  apply andb_prop in Hb as [Hb _]. apply andb_prop in Hb as [Hbne Hbfree].
  apply negb_true_iff in Hane. apply negb_true_iff in Hbne.
  unfold components. rewrite pieces_app by (now rewrite <- no_slash_free_of).
  cbn [String.append Py.pieces]. change (is_slash "/") with true. cbn iota.
  unfold Py.flush at 1. rewrite Hane.
  rewrite pieces_without_separator by exact Hbfree.
  simpl. unfold Py.flush. now rewrite Hbne.
Qed.

(** A target of two link names joined by a slash leads where two [cd]
    commands lead, one name at a time. *)
Theorem cd_path_is_cd_by_steps (f : file) (cur : path) (a b : string) (p : path)
    (Ha : plain_name a = true) (Hb : plain_name b = true)
    (Hadd : a <> "..") (Hbdd : b <> "..") :
  change_directory f cur (String.append a (String "/" b)) = Continue p [] <->
  exists q, change_directory f cur a = Continue q [] /\
            change_directory f q b = Continue p [].
Proof.
  set (t := String.append a (String "/" b)).
  assert (Hfree : Py.free_of is_slash t = false).
  { unfold t. rewrite free_of_app. simpl. apply andb_false_r. }
  assert (Htdd : t <> "..") by (intros E; rewrite E in Hfree; discriminate).
  assert (Htr : t <> "/") by
    (intros E; destruct (plain_name_parts a Ha) as (Hne & _);
     unfold t in E; destruct a as [|x [|y a]]; discriminate).
  assert (Har : a <> "/") by (intros ->; discriminate Ha).
  assert (Hbr : b <> "/") by (intros ->; discriminate Hb).
  assert (Htne : Py.is_empty t = false)
    by (unfold t; destruct a; [discriminate Ha | reflexivity]).
  assert (Htabs : absolute t = false).
  { destruct (plain_name_parts a Ha) as (_ & Habs & _).
    unfold t. destruct a; [discriminate Ha | exact Habs]. }
  destruct (plain_name_parts a Ha) as (Hane & Haabs & Hacomp & Hadot).
  destruct (plain_name_parts b Hb) as (Hbne & Hbabs & Hbcomp & Hbdot).
  assert (Gt : getitem f cur t =
               match node_at f (cur ++ [a; b]) with
               | Some n => Some (cur ++ [a; b], n)
               | None => None
               end).
  { rewrite getitem_walks;
      [ unfold t at 2; now rewrite Htabs, components_two by assumption
      | exact Htne
      | unfold t; rewrite components_two by assumption;
        unfold dotless; simpl; now rewrite Hadot, Hbdot ]. }
  assert (Ga : getitem f cur a =
               match node_at f (cur ++ [a]) with
               | Some n => Some (cur ++ [a], n)
               | None => None
               end).
  { rewrite getitem_walks;
      [ now rewrite Haabs, Hacomp
      | exact Hane
      | rewrite Hacomp; unfold dotless; simpl; now rewrite Hadot ]. }
  assert (Gb : getitem f (cur ++ [a]) b =
               match node_at f ((cur ++ [a]) ++ [b]) with
               | Some n => Some ((cur ++ [a]) ++ [b], n)
               | None => None
               end).
  { rewrite getitem_walks;
      [ now rewrite Hbabs, Hbcomp
      | exact Hbne
      | rewrite Hbcomp; unfold dotless; simpl; now rewrite Hbdot ]. }
  rewrite <- app_assoc in Gb. cbn [app] in Gb.
  rewrite (cd_moves_iff f cur t p Htdd Htr), Gt. split.
  - intros (x & items & H).
    destruct (node_at f (cur ++ [a; b])) as [n|] eqn:En; [|discriminate].
    injection H as <- ->. exists (cur ++ [a]). split.
    + apply (cd_moves_iff f cur a _ Hadd Har). rewrite Ga.
      change [a; b] with ([a] ++ [b]) in En. rewrite app_assoc in En.
      unfold node_at in *. rewrite walk_snoc in En.
      destruct (walk (root f) (cur ++ [a])) as [[y sub|d|y|]|]; try discriminate.
      eauto.
    + apply (cd_moves_iff f _ b _ Hbdd Hbr). rewrite Gb. eauto.
  - intros (q & Hq & Hp).
    apply (cd_moves_iff f cur a q Hadd Har) in Hq as (y & sub & Hq).
    rewrite Ga in Hq. destruct (node_at f (cur ++ [a])); [|discriminate].
    injection Hq as <- _.
    apply (cd_moves_iff f _ b p Hbdd Hbr) in Hp as (x & items & Hp).
    rewrite Gb in Hp. exists x, items. exact Hp.
Qed.

Lemma cd_path_is_cd_by_steps_witness :
  exists q, change_directory Sample.the_file [] "a" = Continue q [] /\
            change_directory Sample.the_file q "b" = Continue ["a"; "b"] [].
Proof.
  apply (cd_path_is_cd_by_steps Sample.the_file [] "a" "b" ["a"; "b"]);
    solve [reflexivity | discriminate].
Defined.

Lemma print_dataset_starts (nm : string) (d : dataset) :
  exists rest, fst (print_dataset nm d) = DsHeader nm :: rest.
Proof. unfold print_dataset, emit. simpl. eauto. Qed.

(** What is neither a group nor a dataset is refused by both commands, each
    taking it for the other kind: for a target other than [".."] and ["/"],
    [cd] answers that it is a dataset and [cat] that it is a group exactly
    when the target leads to a committed datatype. *)
Theorem datatype_is_refused_by_both (f : file) (cur : path) (t : string)
    (Hdd : t <> "..") (Hr : t <> "/") :
  (change_directory f cur t = Continue cur [CdIsDataset t] /\
   view_dataset f cur t = Continue cur [CatIsGroup t]) <->
  exists p a, getitem f cur t = Some (p, Datatype a).
Proof.
  unfold change_directory, view_dataset.
  destruct (String.eqb_spec t "..") as [E|_]; [now contradiction Hdd|].
  destruct (String.eqb_spec t "/") as [E|_]; [now contradiction Hr|].
  destruct (getitem f cur t) as [[p [a items|d|a|]]|]; split;
    try (intros [H1 H2]; discriminate);
    try (intros (q & b & H); discriminate).
  - intros [_ H]. exfalso.
    destruct (print_dataset_starts (name p) d) as [rest Hs].
    destruct (print_dataset (name p) d) as [out [e|]]; [discriminate|].
    simpl in Hs. subst out. discriminate.
  - intros _. eauto.
  - intros _. split; reflexivity.
Qed.

Lemma datatype_is_refused_by_both_witness :
  exists p a, getitem Sample.the_file ["types"] "ty" = Some (p, Datatype a).
Proof.
  apply (datatype_is_refused_by_both Sample.the_file ["types"] "ty");
    [discriminate | discriminate | split; reflexivity].
Defined.

(** ** The path shown in the prompt *)

Lemma concat_empty_sep (x : string) (xs : list string) :
  String.concat "" (x :: xs) = String.append x (String.concat "" xs).
Proof.
  destruct xs; simpl; [now rewrite append_empty_r | reflexivity].
Qed.

Lemma pieces_of_name (p : path) (w : string) :
  plain_path p = true ->
  Py.pieces is_slash w (String.concat "" (map (String.append "/") p)) =
  Py.flush w ++ p.
Proof.
  revert w. induction p as [|c p IH]; intros w Hp.
  - simpl. now rewrite app_nil_r.
  - unfold plain_path in Hp. simpl in Hp. apply andb_prop in Hp as [Hc Hp].
    cbn [map]. rewrite concat_empty_sep.
    cbn [String.append Py.pieces]. change (is_slash "/") with true. cbn iota.
    unfold plain_name in Hc. apply andb_prop in Hc as [Hc _].
    apply andb_prop in Hc as [Hne Hfree]. apply negb_true_iff in Hne.
    rewrite pieces_app by (now rewrite <- no_slash_free_of).
    cbn [String.append]. rewrite IH by exact Hp.
    unfold Py.flush at 2. now rewrite Hne.
Qed.

Lemma components_of_name (p : path) :
  plain_path p = true -> components (name p) = p.
Proof.
  intros Hp. unfold components. destruct p as [|c p]; [reflexivity|].
  unfold name. now rewrite pieces_of_name.
Qed.

Lemma moving_plain_path (p : path) : plain_path p = true -> moving p = p.
Proof.
  unfold plain_path, moving. induction p as [|c p IH]; simpl; [reflexivity|].
  intros H. apply andb_prop in H as [Hc Hp].
  destruct (plain_name_parts c Hc) as (_ & _ & _ & Hdot).
  rewrite Hdot. simpl. now rewrite IH.
Qed.

Lemma dotless_plain_path (p : path) : plain_path p = true -> dotless p = true.
Proof.
  unfold plain_path, dotless. induction p as [|c p IH]; simpl; [reflexivity|].
  intros H. apply andb_prop in H as [Hc Hp].
  destruct (plain_name_parts c Hc) as (_ & _ & _ & Hdot).
  rewrite Hdot. simpl. now apply IH.
Qed.

Lemma name_starts_with_slash (p : path) :
  exists r, name p = String "/" r.
Proof.
  destruct p as [|c p]; [now exists EmptyString|].
  unfold name. cbn [map]. rewrite concat_empty_sep. simpl. eauto.
Qed.

(** [cd] to the name of a group, as [pwd] prints it, enters this group from
    wherever it is typed. *)
Lemma cd_to_name (f : file) (cur p : path) :
  plain_path p = true -> is_group f p = true ->
  change_directory f cur (name p) = Continue p [].
Proof.
  intros Hp Hg.
  destruct (String.eqb_spec (name p) "/") as [E|E].
  - apply name_root_iff_nil in E; [|now apply plain_path_named]. subst p.
    reflexivity.
  - destruct (name_starts_with_slash p) as [r Hr].
    assert (Hdd : name p <> "..") by (rewrite Hr; discriminate).
    apply (cd_moves_iff f cur (name p) p Hdd E).
    rewrite getitem_walks;
      [ | now rewrite Hr
        | rewrite components_of_name by exact Hp; now apply dotless_plain_path ].
    replace (absolute (name p)) with true by (now rewrite Hr).
    rewrite components_of_name by exact Hp. simpl.
    unfold is_group, group_at in Hg.
    destruct (node_at f p) as [[a items|d|a|]|]; try discriminate. eauto.
Qed.

Lemma dispatch_cd (f : file) (cur : path) (nm arg : string) (args : list string) :
  Py.split nm = arg :: args ->
  dispatch f cur (String "c" (String "d" (String " " nm))) =
  change_directory f cur (Py.join_spaces (arg :: args)).
Proof.
  intros Hs.
  assert (Hw : Py.split (String "c" (String "d" (String " " nm))) =
               "cd" :: arg :: args) by (rewrite <- Hs; reflexivity).
  unfold dispatch. rewrite split_strip, Hw.
  destruct (Py.is_empty (Py.strip _)) eqn:E; [|reflexivity].
  apply strip_empty_no_word in E. rewrite Hw in E. discriminate.
Qed.

Lemma moving_clean (comps : list string) :
  Forall (fun x => Py.is_empty x = false /\ Py.free_of is_slash x = true) comps ->
  plain_path (moving comps) = true.
Proof.
  unfold plain_path, moving. induction 1 as [|c cs [Hne Hfree] _ IH];
    [reflexivity|]. cbn [filter].
  destruct (String.eqb c ".") eqn:Hdot; cbn [negb]; [exact IH|].
  cbn [forallb]. rewrite IH, andb_true_r.
  unfold plain_name. now rewrite Hne, no_slash_free_of, Hfree, Hdot.
Qed.

Lemma getitem_plain_path (f : file) (loc : path) (nm : string) (p : path) (n : node) :
  plain_path loc = true -> getitem f loc nm = Some (p, n) ->
  plain_path p = true.
Proof.
  intros Hloc H. unfold getitem in H. destruct (Py.is_empty nm); [discriminate|].
  destruct (resolve f _ _) as [q|] eqn:E; [|discriminate].
  destruct (node_at f q); [|discriminate]. injection H as <- _.
  apply resolve_some in E. subst q. unfold plain_path. rewrite forallb_app.
  apply andb_true_intro. split.
  - now destruct (absolute nm).
  - apply moving_clean. apply pieces_clean. reflexivity.
Qed.

Lemma plain_path_parent (p : path) :
  plain_path p = true -> plain_path (parent p) = true.
Proof.
  unfold plain_path, parent. destruct p as [|c p] using rev_ind; [trivial|].
  rewrite removelast_last, forallb_app. intros H. now apply andb_prop in H as [H _].
Qed.

Lemma dispatch_plain_path (f : file) (cur : path) (s : string)
    (cur' : path) (out : list line) :
  plain_path cur = true -> dispatch f cur s = Continue cur' out ->
  plain_path cur' = true.
Proof.
  intros Hp H.
  destruct (list_eq_dec string_dec cur' cur) as [->|Hne]; [exact Hp|].
  destruct (dispatch_moves_only_on_cd _ _ _ _ _ H Hne)
    as (_ & word & arg & args & Es & Ecd).
  unfold dispatch in H.
  destruct (Py.is_empty (Py.strip s)); [injection H as <- _; now contradiction Hne|].
  rewrite Es, Ecd in H. simpl in H.
  destruct (change_directory_cases f cur (Py.join_spaces (arg :: args)))
    as [(_ & _ & E) | [(_ & _ & E) | [(_ & E) | (_ & _ & [(p & a & items & G & E) | [(p & n & _ & _ & _ & E) | [(_ & E) | (p & _ & E)]]])]]];
    rewrite E in H; try discriminate; injection H as <- _; trivial.
  - now apply plain_path_parent.
  - eapply getitem_plain_path; eauto.
Qed.

Lemma loop_locations_plain (f : file) (filename : string)
    (evs : list input_event) (cur : path) :
  valid f cur = true -> plain_path cur = true ->
  Forall (fun p => is_group f p = true /\ plain_path p = true)
         (locations (loop f filename cur evs)).
Proof.
  revert cur. induction evs as [|ev evs IH]; intros cur Hv Hp.
  - simpl. repeat constructor; trivial. now apply andb_prop in Hv as [Hg _].
  - assert (Hcur : is_group f cur = true /\ plain_path cur = true)
      by (split; [now apply andb_prop in Hv as [Hg _] | exact Hp]).
    simpl. destruct ev as [s|]; [|repeat constructor; tauto].
    destruct (dispatch f cur s) as [cur' out|out|out e] eqn:E; simpl;
      repeat constructor; try tauto.
    apply IH; [eapply dispatch_valid | eapply dispatch_plain_path]; eauto.
Qed.

(** The path shown in a prompt of a session leads back: typed after [cd]
    at any location, it enters the group the prompt was shown for. The path
    has to survive the cutting of the line into words, which holds when its
    whitespace is single spaces between other characters. *)
Theorem prompt_path_leads_back (basename : string -> string) (f : file)
    (filepath : string) (evs : list input_event) (p cur : path) :
  In p (visited (browse_hdf5 basename (Ok f) filepath evs)) ->
  Py.join_spaces (Py.split (name p)) = name p ->
  dispatch f cur (String "c" (String "d" (String " " (name p)))) = Continue p [].
Proof.
  simpl. intros Hin Hw.
  pose proof (loop_locations_plain f (basename filepath) evs []
                (valid_root f) eq_refl) as H.
  rewrite Forall_forall in H. destruct (H p Hin) as [Hg Hp].
  destruct (Py.split (name p)) as [|arg args] eqn:Es.
  - destruct (name_starts_with_slash p) as [r Hr]. rewrite Hr in Hw. discriminate.
  - rewrite (dispatch_cd f cur (name p) arg args Es), Hw. now apply cd_to_name.
Qed.

Lemma prompt_path_leads_back_witness :
  dispatch Sample.the_file ["g1"] "cd /a/b" = Continue ["a"; "b"] [].
Proof.
  apply (prompt_path_leads_back Sample.basename Sample.the_file "f.h5"
           [Line "cd a"; Line "cd b"; Line "ls"] ["a"; "b"] ["g1"]).
  - simpl. auto.
  - reflexivity.
Defined.

(** ** Prompts and the end of the input *)

Ltac split_in :=
  repeat match goal with
  | H : In _ (_ ++ _) |- _ => apply in_app_or in H as [H|H]
  | H : In _ (map _ _) |- _ => apply in_map_iff in H as (? & <- & _)
  | H : In _ (_ :: _) |- _ => destruct H as [<-|H]
  | H : In _ [] |- _ => destruct H
  | H : _ \/ _ |- _ => destruct H as [H|H]
  | H : False |- _ => destruct H
  | H : _ = ?l |- _ => is_var l; subst l
  end.

Lemma filter_none {A : Type} (g : A -> bool) (l : list A) :
  (forall x, In x l -> g x = false) -> filter g l = [].
Proof.
  induction l as [|a l IH]; intros H; simpl; [reflexivity|].
  rewrite (H a) by now left. apply IH. intros x Hx. apply H. now right.
Qed.

Lemma all_done (P : line -> Prop) : all_lines P done.
Proof. intros l []. Qed.

Lemma all_emit (P : line -> Prop) (x : line) (k : report) :
  P x -> all_lines P k -> all_lines P (emit x k).
Proof. intros Hx Hk l [<-|H]; [exact Hx | now apply Hk]. Qed.

Lemma all_reading {A : Type} (P : line -> Prop) (r : result A) (k : A -> report) :
  (forall a, all_lines P (k a)) -> all_lines P (reading r k).
Proof. intros Hk. destruct r as [a|e]; [apply Hk | intros l []]. Qed.

Lemma all_and_then (P : line -> Prop) (a k : report) :
  all_lines P a -> all_lines P k -> all_lines P (and_then a k).
Proof.
  intros Ha Hk. unfold and_then. destruct a as [out [e|]]; simpl; [exact Ha|].
  intros l H. apply in_app_or in H as [H|H]; [now apply Ha | now apply Hk].
Qed.

Lemma all_attr_lines (P : line -> Prop) (entry : string -> string -> line)
    (a : attr_table) :
  (forall k v, P (entry k v)) -> all_lines P (attr_lines entry a).
Proof.
  intros He. induction a as [|[k r] a IH]; [apply all_done|].
  simpl. apply all_reading. intros v. apply all_emit; [apply He | exact IH].
Qed.

Ltac all_lines_tac :=
  repeat first
    [ apply all_done
    | apply all_emit; [try reflexivity; try discriminate|]
    | apply all_reading; intros
    | apply all_and_then
    | apply all_attr_lines; intros; try reflexivity; try discriminate ].

Lemma all_print_dataset (P : line -> Prop) (nm : string) (d : dataset) :
  (forall l, l <> DsEnd -> is_prompt l = false -> P l) -> P DsEnd ->
  all_lines P (print_dataset nm d).
Proof.
  intros HP Hend. unfold print_dataset.
  repeat first
    [ apply all_emit; [first [exact Hend | apply HP; [discriminate | reflexivity]]|]
    | apply all_reading; intros
    | apply all_done ].
  apply all_and_then.
  - destruct (ds_attrs d); [apply all_done|].
    apply all_emit; [apply HP; [discriminate | reflexivity]|].
    apply all_attr_lines. intros k v. apply HP; [discriminate | reflexivity].
  - apply all_emit; [apply HP; [discriminate | reflexivity]|].
    destruct (read d) as [x|[m|m|m]];
      repeat first
        [ apply all_emit; [first [exact Hend | apply HP; [discriminate | reflexivity]]|]
        | apply all_reading; intros
        | apply all_done ].
Qed.

Lemma ls_dataset_line_not_prompt (f : file) (cur : path) (d : string) :
  is_prompt (ls_dataset_line f cur d) = false.
Proof.
  unfold ls_dataset_line.
  destruct (getitem f cur d) as [[p [a sub|x|a|]]|]; try reflexivity.
  destruct (shape x), (dtype x); reflexivity.
Qed.

Lemma print_ls_no_prompt (f : file) (cur : path) (items : list (string * node))
    (l : line) :
  In l (print_ls f cur items) -> is_prompt l = false.
Proof.
  unfold print_ls. intros [<-|H]; [reflexivity|].
  destruct (group_names items), (dataset_names items); split_in;
    try reflexivity; apply ls_dataset_line_not_prompt.
Qed.

Lemma print_dataset_no_prompt (nm : string) (d : dataset) (l : line) :
  In l (fst (print_dataset nm d)) -> is_prompt l = false.
Proof.
  apply (all_print_dataset (fun l => is_prompt l = false)); auto.
Qed.

Lemma attrs_report_no_prompt (nm : string) (a : attr_table) :
  all_lines (fun l => is_prompt l = false) (attrs_report nm a).
Proof.
  unfold attrs_report. apply all_emit; [reflexivity|].
  destruct a; all_lines_tac.
Qed.

Lemma print_attrs_no_prompt (f : file) (cur : path) (a : attr_table)
    (item : option string) :
  all_lines (fun l => is_prompt l = false) (print_attrs f cur a item).
Proof.
  unfold print_attrs. destruct item as [nm|]; [|apply attrs_report_no_prompt].
  destruct (Py.is_empty nm); [apply attrs_report_no_prompt|].
  destruct (getitem f cur nm) as [[p [b sub|d|b|]]|];
    try apply attrs_report_no_prompt.
  - intros l [].
  - intros l [<-|[]]. reflexivity.
Qed.

(** No command prints a prompt. *)
Lemma dispatch_no_prompt (f : file) (cur : path) (s : string) (l : line) :
  In l (step_output (dispatch f cur s)) -> is_prompt l = false.
Proof.
  unfold dispatch.
  destruct (Py.is_empty (Py.strip s)); [intros []|].
  destruct (Py.split (Py.strip s)) as [|word args]; [intros []|].
  destruct (one_of (Py.lower word) ["exit"; "quit"; "q"]);
    [simpl; intros H; split_in; reflexivity|].
  destruct (String.eqb _ "help"); [simpl; intros H; split_in; reflexivity|].
  destruct (String.eqb _ "ls").
  { destruct (group_at f cur) as [[a items]|]; [|intros []].
    apply print_ls_no_prompt. }
  destruct (String.eqb _ "pwd"); [simpl; intros H; split_in; reflexivity|].
  destruct (String.eqb _ "cd").
  { destruct args as [|arg args]; [simpl; intros H; split_in; reflexivity|].
    destruct (change_directory_cases f cur (Py.join_spaces (arg :: args)))
      as [(_ & _ & E) | [(_ & _ & E) | [(_ & E) | (_ & _ & [(p & b & sub & _ & E) | [(p & n & _ & _ & _ & E) | [(_ & E) | (p & _ & E)]]])]]];
      rewrite E; simpl; intros H; split_in; reflexivity. }
  destruct (one_of _ ["cat"; "view"]).
  { destruct args as [|arg args]; [simpl; intros H; split_in; reflexivity|].
    unfold view_dataset.
    destruct (getitem f cur _) as [[p [b sub|d|b|]]|];
      try (simpl; intros H; split_in; reflexivity).
    pose proof (print_dataset_no_prompt (name p) d l) as Hd.
    destruct (print_dataset (name p) d) as [o [e|]]; exact Hd. }
  destruct (String.eqb _ "attrs").
  { destruct (group_at f cur) as [[a items]|]; [|intros []].
    pose proof (print_attrs_no_prompt f cur a (hd_error args) l) as Ha.
    destruct (print_attrs f cur a (hd_error args)) as [o [e|]]; exact Ha. }
  simpl; intros H; split_in; reflexivity.
Qed.

Lemma loop_prompts (f : file) (filename : string) (evs : list input_event)
    (cur : path) :
  filter is_prompt (printed (loop f filename cur evs)) =
  map (fun p => Prompt filename (name p)) (locations (loop f filename cur evs)).
Proof.
  revert cur. induction evs as [|ev evs IH]; intros cur; [reflexivity|].
  simpl. destruct ev as [s|]; [|reflexivity].
  pose proof (dispatch_no_prompt f cur s) as Hout.
  destruct (dispatch f cur s) as [cur' out|out|out e]; simpl in *.
  - rewrite filter_app, (filter_none _ out Hout), IH. reflexivity.
  - now rewrite (filter_none _ out Hout).
  - now rewrite (filter_none _ out Hout).
Qed.

(** The prompts of a session, in order, show the file name and the path of
    the group the loop is in at that moment; one line of input is read per
    prompt at most. *)
Theorem prompts_show_the_locations (basename : string -> string) (f : file)
    (filepath : string) (evs : list input_event) :
  let s := browse_hdf5 basename (Ok f) filepath evs in
  filter is_prompt (output s) =
    map (fun p => Prompt (basename filepath) (name p)) (visited s) /\
  1 <= length (visited s) <= S (length evs).
Proof.
  simpl. split; [apply loop_prompts|].
  generalize (@nil string) as cur. generalize (basename filepath) as fn.
  induction evs as [|ev evs IH]; intros fn cur; simpl; [lia|].
  destruct ev as [l|]; [|simpl; lia].
  destruct (dispatch f cur l) as [cur' out|out|out e]; simpl; try lia.
  specialize (IH fn cur'). lia.
Qed.

Lemma exits_breaks (f : file) (cur : path) (s : string) :
  exits s = true -> dispatch f cur s = Break [Goodbye].
Proof.
  unfold exits, command, dispatch. rewrite split_strip.
  pose proof (strip_empty_no_word s) as Hs.
  destruct (Py.split s) as [|word args]; [discriminate|]. intros H.
  destruct (Py.is_empty (Py.strip s)); [now apply proj1 in Hs; discriminate Hs|].
  unfold one_of. now rewrite H.
Qed.

Lemma loop_stops_at_exit (f : file) (filename : string) (s : string)
    (pre rest : list input_event) (cur : path) :
  exits s = true ->
  loop f filename cur (pre ++ Line s :: rest) =
  loop f filename cur (pre ++ [Line s]).
Proof.
  intros Hs. revert cur. induction pre as [|ev pre IH]; intros cur; simpl.
  - now rewrite (exits_breaks f cur s Hs).
  - destruct ev as [l|]; [|reflexivity].
    destruct (dispatch f cur l); [now rewrite IH | reflexivity | reflexivity].
Qed.

(** A line leaves the loop by [break] exactly when its first word is
    [exit], [quit] or [q] in any letter case, whatever follows on the line;
    the lines after it are never read, and neither are those after an
    interrupt. *)
Theorem exit_stops_reading (f : file) (filename : string) (cur : path)
    (s : string) (pre rest : list input_event) :
  (exits s = true <-> exists out, dispatch f cur s = Break out) /\
  (exits s = true ->
   dispatch f cur s = Break [Goodbye] /\
   loop f filename cur (pre ++ Line s :: rest) =
   loop f filename cur (pre ++ [Line s])) /\
  loop f filename cur (pre ++ Interrupt :: rest) =
  loop f filename cur (pre ++ [Interrupt]).
Proof.
  split; [|split].
  - split.
    + intros H. eexists. now apply exits_breaks.
    + intros [out H]. apply dispatch_breaks_on_exit in H as (_ & word & args & Es & Hv).
      unfold exits, command. rewrite <- split_strip, Es. exact Hv.
  - intros H. split; [now apply exits_breaks | now apply loop_stops_at_exit].
  - revert cur. induction pre as [|ev pre IH]; intros cur; simpl; [reflexivity|].
    destruct ev as [l|]; [|reflexivity].
    destruct (dispatch f cur l); [now rewrite IH | reflexivity | reflexivity].
Qed.

Lemma exit_stops_reading_witness :
  dispatch Sample.the_file ["g1"] "  QUIT now " = Break [Goodbye] /\
  loop Sample.the_file "f.h5" [] ([Line "cd g1"] ++ Line "  QUIT now " :: [Line "ls"]) =
  loop Sample.the_file "f.h5" [] ([Line "cd g1"] ++ [Line "  QUIT now "]).
Proof.
  split.
  - apply (exit_stops_reading Sample.the_file "f.h5" ["g1"] "  QUIT now " [] []).
    reflexivity.
  - apply (exit_stops_reading Sample.the_file "f.h5" [] "  QUIT now "
             [Line "cd g1"] [Line "ls"]).
    reflexivity.
Defined.

(** ** Listing, attribute and dataset reports *)

Lemma find_item_unique (items : list (string * node)) (k : string) (n : node) :
  NoDup (map fst items) -> In (k, n) items -> find_item k items = Some n.
Proof.
  induction items as [|[k' n'] items IH]; simpl; [intros _ []|].
  intros Hnd [H|H]; inversion Hnd as [|? ? Hk Hnd']; subst.
  - injection H as -> ->. now rewrite String.eqb_refl.
  - destruct (String.eqb_spec k' k) as [->|_]; [|now apply IH].
    exfalso. apply Hk. apply in_map_iff. now exists (k, n).
Qed.

(** In a group whose member names are distinct, [ls] shows every dataset
    with its own shape and dtype, or with the exception when one of them
    cannot be read; [cat] on a dataset of the second sort raises that
    exception out of the loop instead. *)
Theorem unreadable_dataset_is_listed (f : file) (cur : path) (a : attr_table)
    (items : list (string * node)) (d : string) (ds : dataset)
    (Hg : group_at f cur = Some (a, items))
    (Hnames : NoDup (map fst items))
    (Hin : In (d, Dataset ds) items)
    (Hplain : plain_name d = true) :
  In (match shape ds, dtype ds with
      | Ok shp, Ok ty => LsDataset d shp ty
      | Raise e, _ => LsUnreadable d e
      | Ok _, Raise e => LsUnreadable d e
      end) (print_ls f cur items) /\
  dispatch f cur "ls" = Continue cur (print_ls f cur items) /\
  forall e,
    shape ds = Raise e \/ (exists shp, shape ds = Ok shp /\ dtype ds = Raise e) ->
    exists out, view_dataset f cur d = Raised out e.
Proof.
  assert (G : getitem f cur d = Some (cur ++ [d], Dataset ds)).
  { rewrite getitem_plain by exact Hplain. unfold child. rewrite Hg.
    now rewrite (find_item_unique items d (Dataset ds) Hnames Hin). }
  split; [|split].
  - rewrite print_ls_members
      by (exists (d, Dataset ds); split; [exact Hin | reflexivity]).
    right. apply in_or_app. right.
    apply in_map_iff. exists d. split.
    + unfold ls_dataset_line. rewrite G.
      destruct (shape ds), (dtype ds); reflexivity.
    + eapply Permutation_in; [symmetry; apply sorted_perm|].
      apply in_dataset_names. eauto.
  - unfold dispatch. simpl. now rewrite Hg.
  - intros e He. unfold view_dataset. rewrite G.
    unfold print_dataset, emit, reading.
    destruct He as [->|(shp & -> & ->)]; simpl; eauto.
Qed.

Lemma unreadable_dataset_is_listed_witness :
  In (LsDataset "d1" (Some [5]) "int64")
     (print_ls Sample.the_file ["g1"]
        [("d1", Dataset Sample.d1); ("my data", Dataset Sample.d1)]).
Proof.
  assert (H : NoDup (map fst [("d1", Dataset Sample.d1);
                               ("my data", Dataset Sample.d1)])).
  { simpl. repeat constructor; simpl; intuition discriminate. }
  apply (unreadable_dataset_is_listed Sample.the_file ["g1"] [] _ "d1" Sample.d1
           eq_refl H (or_introl eq_refl) eq_refl).
Defined.

Ltac absurd_in :=
  repeat match goal with
  | H : In _ (_ ++ _) |- _ => apply in_app_or in H as [H|H]
  | H : In _ (map _ _) |- _ => apply in_map_iff in H as (? & H & _)
  | H : In _ (_ :: _) |- _ => destruct H as [H|H]
  | H : In _ [] |- _ => destruct H
  end; try discriminate.

Lemma attr_lines_spec (entry : string -> string -> line) (a : attr_table) :
  attr_lines entry a =
  (map (fun kv => entry (fst kv) (snd kv)) (readable a), unreadable a).
Proof.
  induction a as [|[k [v|e]] a IH]; simpl; try reflexivity.
  unfold emit. now rewrite IH.
Qed.

Lemma filter_attr_entries (kvs : list (string * string)) :
  filter is_attr_entry (map (fun kv => AttrsEntry (fst kv) (snd kv)) kvs) =
  map (fun kv => AttrsEntry (fst kv) (snd kv)) kvs.
Proof. induction kvs as [|kv kvs IH]; simpl; [reflexivity | now rewrite IH]. Qed.

Lemma attrs_report_table (nm : string) (a : attr_table) :
  let r := attrs_report nm a in
  hd_error (fst r) = Some (AttrsHeader nm) /\
  filter is_attr_entry (fst r) =
    map (fun kv => AttrsEntry (fst kv) (snd kv)) (readable a) /\
  snd r = unreadable a /\
  (In AttrsNone (fst r) <-> a = []) /\
  (In AttrsFooter (fst r) <-> a <> [] /\ unreadable a = None).
Proof.
  unfold attrs_report. cbv zeta. split; [reflexivity|].
  destruct a as [|kv a].
  - simpl. split; [reflexivity|]. split; [reflexivity|]. split; split.
    + reflexivity.
    + intros _. right. now left.
    + intros [E|[E|[]]]; discriminate.
    + now intros [E _].
  - rewrite attr_lines_spec. unfold and_then, emit, done. cbn [fst snd].
    destruct (unreadable (kv :: a)) as [e|] eqn:Eu; cbn [fst snd].
    + split; [apply filter_attr_entries|]. split; [reflexivity|].
      split; split; try discriminate.
      * intros H. exfalso. absurd_in.
      * intros H. exfalso. absurd_in.
      * now intros [_ H].
    + split.
      { cbn [filter is_attr_entry]. rewrite filter_app. cbn [filter is_attr_entry].
        rewrite app_nil_r. apply filter_attr_entries. }
      split; [reflexivity|]. split; split; try discriminate.
      * intros H. exfalso. absurd_in.
      * intros _. split; [discriminate | reflexivity].
      * intros _. right. apply in_or_app. right. now left.
Qed.

(** [attrs] reports the current group when no name is given, and otherwise
    the object the name leads to, group, dataset or datatype alike. The
    header names it; the attributes have their entries in the order of the
    table up to the first one whose value cannot be read, whose exception
    leaves the function; a table without attributes is reported by a line of
    its own, and the footer is printed when the table is not empty and all
    of it was read. *)
Theorem attrs_lists_the_table (f : file) (cur : path) (ga : attr_table)
    (item : option string) (p : path) (n : node)
    (Htarget : match item with
               | None => p = cur /\ attrs_of n = ga
               | Some t => Py.is_empty t = false /\
                           getitem f cur t = Some (p, n) /\ n <> Dangling
               end) :
  let r := print_attrs f cur ga item in
  hd_error (fst r) = Some (AttrsHeader (name p)) /\
  filter is_attr_entry (fst r) =
    map (fun kv => AttrsEntry (fst kv) (snd kv)) (readable (attrs_of n)) /\
  snd r = unreadable (attrs_of n) /\
  (In AttrsNone (fst r) <-> attrs_of n = []) /\
  (In AttrsFooter (fst r) <-> attrs_of n <> [] /\ unreadable (attrs_of n) = None).
Proof.
  unfold print_attrs. destruct item as [t|].
  - destruct Htarget as (Hne & G & Hn). rewrite Hne, G.
    destruct n as [a items|d|a|]; try apply attrs_report_table.
    now contradiction Hn.
  - destruct Htarget as [-> <-]. apply attrs_report_table.
Qed.

Lemma attrs_lists_the_table_witness :
  filter is_attr_entry (fst (print_attrs Sample.the_file ["misc"] [] (Some "t"))) =
  [AttrsEntry "unit" "m"].
Proof.
  apply (attrs_lists_the_table Sample.the_file ["misc"] [] (Some "t")
           ["misc"; "t"] (Dataset Sample.tagged)).
  repeat split. discriminate.
Defined.

Ltac raised_early :=
  simpl; split; [reflexivity|]; split; split; try discriminate;
  [ intros H; exfalso; simpl in H; intuition discriminate
  | intros ((? & ?) & (? & ?) & (? & ?) & (? & ?) & (? & ?) & _); congruence ].

(** [print_dataset] returns exactly when the shape, the dtype, the size, the
    chunks, the compression and the value of every attribute can be read and
    the read of the data does not raise a [TypeError]; the closing line of
    the report is printed exactly then, and the report always starts with the
    name of the dataset. *)
Theorem print_dataset_closes_iff_returns (nm : string) (d : dataset) :
  let r := print_dataset nm d in
  hd_error (fst r) = Some (DsHeader nm) /\
  (snd r = None <-> In DsEnd (fst r)) /\
  (snd r = None <->
   (exists shp, shape d = Ok shp) /\ (exists ty, dtype d = Ok ty) /\
   (exists n, size d = Ok n) /\ (exists c, chunks d = Ok c) /\
   (exists z, compression d = Ok z) /\
   unreadable (ds_attrs d) = None /\
   forall m, read d <> Raise (TypeError m)).
Proof.
  intros r. subst r. unfold print_dataset, emit, reading, done.
  destruct (shape d) as [shp|e1]; [|raised_early].
  destruct (dtype d) as [ty|e2]; [|raised_early].
  destruct (size d) as [n|e3]; [|raised_early].
  destruct (chunks d) as [c|e4]; [|raised_early].
  destruct (compression d) as [z|e5]; [|raised_early].
  match goal with
  | |- context [and_then ?A _] =>
      assert (Hattrs :
                A = (match ds_attrs d with
                     | [] => []
                     | kvs => DsAttrsHeader ::
                              map (fun kv => DsAttr (fst kv) (snd kv)) (readable kvs)
                     end, unreadable (ds_attrs d)))
  end.
  { destruct (ds_attrs d) as [|kv kvs]; [reflexivity|].
    cbv beta match zeta. now rewrite attr_lines_spec. }
  rewrite Hattrs. unfold and_then. cbn [fst snd].
  destruct (unreadable (ds_attrs d)) as [e6|] eqn:Eu.
  { cbn [fst snd]. split; [reflexivity|]. split; split; try discriminate.
    - intros H. exfalso. destruct (ds_attrs d); absurd_in.
    - intros (_ & _ & _ & _ & _ & H & _). discriminate. }
  destruct (read d) as [x|[m|m|m]]; cbn [fst snd];
    (split; [reflexivity|]); split; split; trivial; try discriminate.
  - intros _. do 6 right. apply in_or_app. right. simpl. tauto.
  - intros _. repeat (split; [eauto|]). discriminate.
  - intros H. exfalso. destruct (ds_attrs d); absurd_in.
  - intros (_ & _ & _ & _ & _ & _ & H). now contradiction (H m).
  - intros _. do 6 right. apply in_or_app. right. simpl. tauto.
  - intros _. repeat (split; [eauto|]). discriminate.
  - intros _. do 6 right. apply in_or_app. right. simpl. tauto.
  - intros _. repeat (split; [eauto|]). discriminate.
Qed.

(** ** The size of a preview *)

Lemma length_elements (a : Np.ndarray) : length (Np.elements a) = Np.size a.
Proof.
  induction a as [x|items IH] using ndarray_items_ind; [reflexivity|]. simpl.
  induction IH as [|b items Hb _ IHitems]; simpl; [reflexivity|].
  now rewrite length_app, Hb, IHitems.
Qed.

Lemma length_flat_map_le {A B : Type} (g : A -> list B) (bound : nat) (l : list A) :
  forallb (fun x => (length (g x) <=? bound)%nat) l = true ->
  length (flat_map g l) <= length l * bound.
Proof.
  induction l as [|a l IH]; simpl; [lia|]. intros H.
  apply andb_prop in H as [Ha Hl]. apply Nat.leb_le in Ha.
  rewrite length_app. specialize (IH Hl). lia.
Qed.

Lemma list_max_bounds (l : list nat) (n : nat) : In n l -> n <= list_max l.
Proof.
  induction l as [|m l IH]; simpl; [intros []|]. intros [->|H]; [lia|].
  specialize (IH H). lia.
Qed.

(** A summarised array of [d] axes shows at most [(2 * edgeitems) ^ d]
    elements. *)
Lemma format_summary_bound (e : nat) (a : Np.ndarray) :
  1 <= e ->
  length (Np.shown (Np.format_array e true a)) <= (2 * e) ^ Np.depth a.
Proof.
  intros He. induction a as [x|items IH] using ndarray_items_ind; [simpl; lia|].
  set (M := list_max (map Np.depth items)).
  assert (Hall : forallb (fun v => (length (Np.shown v) <=? (2 * e) ^ M)%nat)
                   (map (Np.format_array e true) items) = true).
  { apply forallb_map_all. rewrite Forall_forall in *. intros b Hb.
    apply Nat.leb_le. etransitivity; [apply (IH b Hb)|].
    apply Nat.pow_le_mono_r; [lia|].
    apply list_max_bounds, in_map, Hb. }
  cbn [Np.format_array Np.depth andb]. fold M.
  destruct (2 * e <? length items)%nat eqn:E; cbn [Np.shown].
  - apply Nat.ltb_lt in E. rewrite length_app.
    pose proof (length_flat_map_le Np.shown _ _ (forallb_firstn _ e _ Hall)) as H1.
    pose proof (length_flat_map_le Np.shown _ _
                  (forallb_skipn _ (length items - e) _ Hall)) as H2.
    rewrite length_firstn, length_map in H1.
    rewrite length_skipn, length_map in H2.
    replace (Nat.min e (length items)) with e in H1 by lia.
    replace (length items - (length items - e)) with e in H2 by lia.
    rewrite Nat.pow_succ_r'. lia.
  - apply Nat.ltb_ge in E. simpl app.
    pose proof (length_flat_map_le Np.shown _ _ Hall) as H.
    rewrite length_map in H. rewrite Nat.pow_succ_r'. nia.
Qed.

(** However many elements a dataset holds, its preview shows at most 100 of
    them or, when it is summarised, at most 20 per axis: [20 ^ d] for an
    array of [d] axes. *)
Theorem preview_is_bounded (a : Np.ndarray) :
  length (Np.shown (Np.array2string preview_threshold preview_edgeitems a))
  <= Nat.max 100 (20 ^ Np.depth a).
Proof.
  unfold Np.array2string.
  destruct (preview_threshold <? Np.size a)%nat eqn:E.
  - etransitivity; [apply format_summary_bound; unfold preview_edgeitems; lia|].
    change (2 * preview_edgeitems) with 20. lia.
  - apply Nat.ltb_ge in E. rewrite (proj1 (format_full _ a)), length_elements.
    unfold preview_threshold in E. lia.
Qed.

Lemma size_of_vector (xs : list Z) :
  Np.size (Np.Axis (map Np.Elem xs)) = length xs.
Proof.
  simpl. induction xs as [|x xs IH]; simpl; [reflexivity | now rewrite IH].
Qed.

(** The preview of a one-dimensional array of more than 100 elements is its
    first 10 elements, the marker and its last 10 elements; with at most 100
    elements it is the whole array. *)
Theorem preview_of_a_vector (xs : list Z) :
  Np.array2string preview_threshold preview_edgeitems (Np.Axis (map Np.Elem xs)) =
  if (100 <? length xs)%nat
  then Np.VAxis (map Np.VElem (firstn 10 xs)) true
                (map Np.VElem (skipn (length xs - 10) xs))
  else Np.VAxis [] false (map Np.VElem xs).
Proof.
  unfold Np.array2string. rewrite size_of_vector.
  change preview_threshold with 100. cbn [Np.format_array].
  rewrite map_map, length_map. cbn [Np.format_array].
  destruct (100 <? length xs)%nat eqn:E.
  - apply Nat.ltb_lt in E.
    replace (2 * preview_edgeitems <? length xs)%nat with true
      by (symmetry; apply Nat.ltb_lt; unfold preview_edgeitems; lia).
    cbn [andb]. unfold preview_edgeitems. now rewrite firstn_map, skipn_map.
  - reflexivity.
Qed.

(** The marker of a preview: it is printed exactly when the array has more
    than 100 elements and one of its axes has more than 20 items, and a
    preview without marker shows every element of the array in order. *)
Theorem preview_marker_rule (a : Np.ndarray) :
  let v := Np.array2string preview_threshold preview_edgeitems a in
  Np.has_marker v = ((100 <? Np.size a)%nat && Np.long_axis 20 a)%bool /\
  (Np.has_marker v = false -> Np.shown v = Np.elements a).
Proof.
  cbv zeta. split; [|apply format_no_marker_all_shown].
  unfold Np.array2string. change preview_threshold with 100.
  destruct (100 <? Np.size a)%nat; cbn [andb].
  - apply (format_summary_marker 10).
  - apply format_full.
Qed.

(** ** The last line of a session *)

Lemma last_app_right {A : Type} (l r : list A) (d : A) :
  r <> [] -> last (l ++ r) d = last r d.
Proof.
  intros Hr. induction l as [|a l IH]; [reflexivity|].
  simpl. destruct (l ++ r) eqn:E; [|exact IH].
  apply app_eq_nil in E as [_ E]. now contradiction Hr.
Qed.

Lemma loop_printed_not_nil (f : file) (filename : string) (cur : path)
    (evs : list input_event) :
  printed (loop f filename cur evs) <> [].
Proof.
  destruct evs as [|[s|] evs]; simpl; try discriminate.
  destruct (dispatch f cur s); discriminate.
Qed.

Lemma loop_last_line (f : file) (filename : string) (evs : list input_event)
    (cur : path) :
  ended (loop f filename cur evs) = LoopLeft ->
  In (last (printed (loop f filename cur evs)) HelpHint)
     [Goodbye; EofNotice; InterruptNotice].
Proof.
  revert cur. induction evs as [|ev evs IH]; intros cur; [simpl; auto|].
  destruct ev as [s|]; [|simpl; auto].
  cbn [loop]. destruct (dispatch f cur s) as [cur' out|out|out e] eqn:E;
    cbn [printed ended]; [| |discriminate].
  - intros H.
    change (Prompt filename (name cur) :: out ++ printed (loop f filename cur' evs))
      with ((Prompt filename (name cur) :: out) ++ printed (loop f filename cur' evs)).
    rewrite last_app_right by apply loop_printed_not_nil. now apply IH.
  - intros _. apply dispatch_breaks_on_exit in E as [-> _]. simpl. auto.
Qed.

(** The last line the program prints tells how the session ended: the
    refusal of a file that cannot be opened, the goodbye of an exit command,
    the notice of the end of input or of an interrupt, or the report of the
    exception that left [browse_hdf5]. *)
Theorem last_line_tells_the_end (basename : string -> string)
    (opening : result file) (file_path : string) (evs : list input_event) :
  let s := browse_hdf5 basename opening file_path evs in
  let final := last (main basename opening file_path evs) HelpHint in
  match opening, raised s with
  | Raise e, _ => final = OpenFailed file_path e
  | Ok _, None => In final [Goodbye; EofNotice; InterruptNotice]
  | Ok _, Some e => final = TopLevelError e
  end.
Proof.
  unfold main. destruct opening as [f|e]; [|reflexivity].
  cbn [browse_hdf5 output raised].
  destruct (ended (loop f (basename file_path) [] evs)) as [|e] eqn:E.
  - rewrite app_nil_r.
    change (SelectedFile file_path :: OpenedFile (basename file_path) :: HelpHint ::
              printed (loop f (basename file_path) [] evs))
      with ([SelectedFile file_path; OpenedFile (basename file_path); HelpHint] ++
              printed (loop f (basename file_path) [] evs)).
    rewrite last_app_right by apply loop_printed_not_nil.
    now apply loop_last_line.
  - rewrite app_comm_cons, last_app_right by discriminate. reflexivity.
Qed.
